(* ===================================================================== *)
(* Remi mobile app: the camera screen of mobile/app/index.tsx and the     *)
(* profile page of mobile/app/profile.tsx                                 *)
(*                                                                       *)
(* The camera screen polls a detection service every CAPTURE_INTERVAL    *)
(* milliseconds, keeps a per-name table of the last time a person was    *)
(* shown (lastDetectionTime), and slides a card up for the first person  *)
(* of a response whose similarity passes 0.6 and whose cool-down of 30 s *)
(* has expired.  This file embeds that code and states what it does.     *)
(*                                                                       *)
(* Conventions of the embedding                                          *)
(*  - Date.now() yields whole milliseconds since the epoch: a Z.         *)
(*  - similarity is an IEEE binary64 number: a primitive float, compared *)
(*    with the kernel's ltb, the literal 0.6 being the source's literal. *)
(*  - lastDetectionTime.current, profileData and the table of the       *)
(*    profile page are plain objects indexed by a name: their own        *)
(*    properties are a gmap string _, and a lookup that finds no own     *)
(*    property falls through to Object.prototype (constructor, ...).     *)
(*  - an awaited call either returns or raises: the outcome monad.       *)
(*  - the timer, the cycles in flight and the clean-up of the effect are *)
(*    a step function over the events of the JavaScript event loop.      *)
(* ===================================================================== *)

From Stdlib Require Import ZArith Bool List Floats Lia.
From stdpp Require Import base option gmap strings list fin_maps pretty.
Import ListNotations.

Local Open Scope string_scope.
Local Open Scope list_scope.
Local Open Scope Z_scope.

(* 0.6 is no binary64 number: like the JavaScript literal, the Rocq
   literal denotes the nearest one, 0x1.3333333333333p-1. *)
Set Warnings "-inexact-float".

(* --------------------------------------------------------------------- *)
(* Constants and data                                                     *)
(* --------------------------------------------------------------------- *)

(* const CAPTURE_INTERVAL = 2000; *)
Definition CAPTURE_INTERVAL : Z := 2000.

(* The literal 30000 of canShowPerson ("30 seconds cooldown"). *)
Definition COOLDOWN_MS : Z := 30000.

(* The literal 0.6 of the test result.persons[0].similarity > 0.6. *)
Definition SIMILARITY_THRESHOLD : float := 0.6%float.

(* interface DetectedPerson { name; similarity; relation } *)
Record DetectedPerson : Type := mkDetectedPerson {
  name : string;
  similarity : float;
  relation : string
}.

(* The JSON body of the detection service: result.persons may be missing. *)
Record DetectResult : Type := mkDetectResult {
  persons : option (list DetectedPerson)
}.

Module Profile.

(* The two icon components the table refers to. *)
Inductive Icon : Type := DanielIcons | MichelleIcons.

(* interface ProfileInfo { fullName; relation; image; IconComponent } *)
Record ProfileInfo : Type := mkProfileInfo {
  fullName : string;
  relation : string;
  image : string;
  IconComponent : Icon
}.

End Profile.

(* const profileData: ProfileData = { 'Daniel': ..., 'Michelle': ... } *)
Definition profileData : gmap string Profile.ProfileInfo :=
  <["Daniel" := Profile.mkProfileInfo "Daniel Kim" "Your Grandson"
                  "../assets/images/daniel-half.png" Profile.DanielIcons]>
  (<["Michelle" := Profile.mkProfileInfo "Michelle Feng" "Your Granddaughter"
                  "../assets/images/michelle-half.png" Profile.MichelleIcons]>
   ∅).

(* The state of the App component that the cycle and the card use:
   the detectedPerson state, the lastDetectionTime ref and imageCache. *)
Record App : Type := mkApp {
  detectedPerson : option DetectedPerson;
  lastDetectionTime : gmap string Z;
  imageCache : gmap string string
}.

(* --------------------------------------------------------------------- *)
(* canShowPerson                                                          *)
(* --------------------------------------------------------------------- *)

(* The property names every object inherits from Object.prototype
   (ECMA-262, with the accessors of its Annex B). *)
Definition Object_prototype : list string :=
  ["constructor"; "hasOwnProperty"; "isPrototypeOf"; "propertyIsEnumerable";
   "toLocaleString"; "toString"; "valueOf"; "__proto__";
   "__defineGetter__"; "__defineSetter__"; "__lookupGetter__"; "__lookupSetter__"].

Definition inherited (key : string) : bool :=
  existsb (String.eqb key) Object_prototype.

(* What o[key] finds on {} or on an object literal: an own property, or a
   property of Object.prototype (a function, or for __proto__ the prototype
   itself: truthy, and no number), or undefined. *)
Inductive property (V : Type) : Type :=
| Own (v : V)
| Inherited
| Missing.
Arguments Own {V} v.
Arguments Inherited {V}.
Arguments Missing {V}.

(* o[key], the own properties of o being the entries of the map.  No
   assignment makes __proto__ an own property: it always reads through the
   accessor of Object.prototype. *)
Definition js_get {V : Type} (o : gmap string V) (key : string) : property V :=
  if decide (key = "__proto__") then Inherited
  else match o !! key with
       | Some v => Own v
       | None => if inherited key then Inherited else Missing
       end.

(* o[key] = v for a number or a string v: the own property is created or
   overwritten, except under __proto__, whose setter ignores what is no
   object. *)
Definition js_set {V : Type} (o : gmap string V) (key : string) (v : V) : gmap string V :=
  if decide (key = "__proto__") then o else <[key := v]> o.

(* lastDetectionTime.current[personName] || 0 : undefined and a stored 0
   are falsy and give 0; an inherited function or object is truthy and is
   kept, [None] standing for that value, which is no number. *)
Definition or_zero (v : property Z) : option Z :=
  match v with
  | Own t => Some (if t =? 0 then 0 else t)
  | Inherited => None
  | Missing => Some 0
  end.

(* const canShowPerson = (personName) => {
     const now = Date.now();
     const lastTime = lastDetectionTime.current[personName] || 0;
     return now - lastTime > 30000; };
   [now] is the reading of Date.now() the call makes.  When lastTime is no
   number, now - lastTime is NaN and NaN > 30000 is false. *)
Definition canShowPerson (last : gmap string Z) (now : Z) (personName : string) : bool :=
  match or_zero (js_get last personName) with
  | Some lastTime => COOLDOWN_MS <? now - lastTime
  | None => false
  end.

(* --------------------------------------------------------------------- *)
(* Awaited calls                                                          *)
(* --------------------------------------------------------------------- *)

(* What awaiting a promise gives: its value, or the error it rejects with.
   An async function without try/catch rejects with the first error. *)
Inductive outcome (A : Type) : Type :=
| Returned (a : A)
| Raised (e : string).
Arguments Returned {A} a.
Arguments Raised {A} e.

#[global] Instance outcome_ret : MRet outcome := fun A a => Returned a.
#[global] Instance outcome_bind : MBind outcome := fun A B f m =>
  match m with
  | Returned a => f a
  | Raised e => Raised e
  end.

(* What the surroundings answer to one run of captureAndSendFrame: whether
   cameraRef.current is set, the camera, the image resizer, the detection
   service and the JSON decoder of its response, and the two readings of
   Date.now() (the one inside canShowPerson, then the one recorded). *)
Record World : Type := mkWorld {
  cameraRef : bool;
  takePictureAsync : outcome (option string);
  manipulateAsync : string -> outcome string;
  fetch : string -> outcome string;
  json : string -> outcome DetectResult;
  Date_now1 : Z;
  Date_now2 : Z
}.

(* One call of setDetectedPerson by the cycle, with the two clock readings
   the cycle made around it. *)
Record Emission : Type := mkEmission {
  shown : DetectedPerson;
  checked_at : Z;
  recorded_at : Z
}.

(* --------------------------------------------------------------------- *)
(* captureAndSendFrame                                                    *)
(* --------------------------------------------------------------------- *)

(* setDetectedPerson(p); lastDetectionTime.current[p.name] = Date.now(); *)
Definition show (app : App) (p : DetectedPerson) (now : Z) : App :=
  {| detectedPerson := Some p;
     lastDetectionTime := js_set (lastDetectionTime app) (name p) now;
     imageCache := imageCache app |}.

(* The last, synchronous part of the cycle:
     if (result.persons && result.persons.length > 0 &&
         result.persons[0].similarity > 0.6 &&
         canShowPerson(result.persons[0].name)) {
       setDetectedPerson(result.persons[0]);
       lastDetectionTime.current[result.persons[0].name] = Date.now(); }
   [now1] is the reading of Date.now() inside canShowPerson, [now2] the
   reading that is stored. *)
Definition announce (now1 now2 : Z) (app : App) (result : DetectResult)
  : App * list Emission :=
  match persons result with
  | Some (p0 :: _) =>
      if (SIMILARITY_THRESHOLD <? similarity p0)%float
         && canShowPerson (lastDetectionTime app) now1 (name p0)
      then (show app p0 now2, [mkEmission p0 now1 now2])
      else (app, [])
  | Some [] => (app, [])
  | None => (app, [])
  end.

(* const captureAndSendFrame = async () => {
     if (cameraRef.current) {
       const photo = await cameraRef.current.takePictureAsync(...);
       if (!photo) return;
       const resizedPhoto = await ImageManipulator.manipulateAsync(photo.uri, ...);
       const response = await fetch('http://localhost:8000/detect', ...);
       const result = await response.json();
       if (...) {...} } };
   There is no try/catch: the result is the promise's outcome. *)
Definition captureAndSendFrame (w : World) (app : App)
  : outcome (App * list Emission) :=
  if cameraRef w then
    photo ← takePictureAsync w;
    match photo with
    | None => mret (app, [])
    | Some uri =>
        resizedPhoto ← manipulateAsync w uri;
        response ← fetch w resizedPhoto;
        result ← json w response;
        mret (announce (Date_now1 w) (Date_now2 w) app result)
    end
  else mret (app, []).

(* --------------------------------------------------------------------- *)
(* The card                                                               *)
(* --------------------------------------------------------------------- *)

Inductive ImageSource : Type :=
| Uri (uri : string)
| Asset (path : string).

(* What the bottom sheet shows of a person. *)
Record Card : Type := mkCard {
  headerImage : ImageSource;
  nameText : string;
  relationText : string;
  icons : Profile.Icon;
  profileLink : string
}.

(* imageCache[name] ? { uri: imageCache[name] } : profileData[name].image
   as the card evaluates it, for a name that is an own key of profileData. *)
Definition header_source (cache : gmap string string) (n : string)
  (info : Profile.ProfileInfo) : ImageSource :=
  match cache !! n with
  | Some uri => if decide (uri = "") then Asset (Profile.image info) else Uri uri
  | None => Asset (Profile.image info)
  end.

(* {detectedPerson && profileData[detectedPerson.name] && ( <View ...> )}
   For a name that profileData only inherits, the guard is truthy, the
   fields read from the inherited value are undefined, and
   React.createElement(undefined) makes the render throw. *)
Definition card (app : App) : outcome (option Card) :=
  match detectedPerson app with
  | None => Returned None
  | Some p =>
      match js_get profileData (name p) with
      | Own info =>
          Returned (Some {| headerImage := header_source (imageCache app) (name p) info;
                            nameText := Profile.fullName info;
                            relationText := Profile.relation info;
                            icons := Profile.IconComponent info;
                            profileLink := name p |})
      | Inherited => Raised "Element type is invalid"
      | Missing => Returned None
      end
  end.

(* --------------------------------------------------------------------- *)
(* The screen as a machine over the events of the event loop              *)
(* --------------------------------------------------------------------- *)

(* useEffect(() => { const interval = setInterval(captureAndSendFrame,
                                                  CAPTURE_INTERVAL);
                     return () => clearInterval(interval); }, []);
   [timer] is whether the interval is armed; [inflight] are the runs of
   captureAndSendFrame waiting on an await; [emitted] the calls of
   setDetectedPerson made by cycles, oldest first; [unhandled] the errors
   of rejected cycle promises, which setInterval drops. *)
Record Session : Type := mkSession {
  app : App;
  timer : bool;
  inflight : list World;
  emitted : list Emission;
  unhandled : list string
}.

Inductive Event : Type :=
| Tick (w : World)     (* the interval fires: a run starts, to be answered by w *)
| Settle (i : nat)     (* the awaited calls of the i-th run in flight are over *)
| SwipeDown            (* the sheet is swiped away: setDetectedPerson(null) *)
| Unmount.             (* the effect is cleaned up: clearInterval *)

(* The screen when it mounts. *)
Definition mount : Session :=
  {| app := {| detectedPerson := None; lastDetectionTime := ∅; imageCache := ∅ |};
     timer := true; inflight := []; emitted := []; unhandled := [] |}.

(* A run reads and writes the component only in its last synchronous part,
   after its last await: the whole run is applied when it settles, to the
   component as it is then.  Until its first await a run only tests
   cameraRef.current, which decides whether anything is awaited at all. *)
Definition step (s : Session) (ev : Event) : Session :=
  match ev with
  | Tick w =>
      if timer s && cameraRef w
      then {| app := app s; timer := timer s; inflight := inflight s ++ [w];
              emitted := emitted s; unhandled := unhandled s |}
      else s
  | Settle i =>
      match inflight s !! i with
      | None => s
      | Some w =>
          match captureAndSendFrame w (app s) with
          | Returned (app', evs) =>
              {| app := app'; timer := timer s; inflight := delete i (inflight s);
                 emitted := emitted s ++ evs; unhandled := unhandled s |}
          | Raised e =>
              {| app := app s; timer := timer s; inflight := delete i (inflight s);
                 emitted := emitted s; unhandled := unhandled s ++ [e] |}
          end
      end
  | SwipeDown =>
      {| app := {| detectedPerson := None;
                   lastDetectionTime := lastDetectionTime (app s);
                   imageCache := imageCache (app s) |};
         timer := timer s; inflight := inflight s;
         emitted := emitted s; unhandled := unhandled s |}
  | Unmount =>
      {| app := app s; timer := false; inflight := inflight s;
         emitted := emitted s; unhandled := unhandled s |}
  end.

Definition run (s : Session) (evs : list Event) : Session := fold_left step evs s.

(* --------------------------------------------------------------------- *)
(* Vocabulary of the statements                                           *)
(* --------------------------------------------------------------------- *)

(* The camera is there and every awaited call returns, the decoded body
   being [result]. *)
Definition answers (w : World) (result : DetectResult) : Prop :=
  cameraRef w = true
  /\ exists uri resized response,
       takePictureAsync w = Returned (Some uri)
       /\ manipulateAsync w uri = Returned resized
       /\ fetch w resized = Returned response
       /\ json w response = Returned result.

(* The camera is there and the first awaited call that does not return
   raises [e]: the camera, the resizer, the request or the decoding. *)
Definition raises (w : World) (e : string) : Prop :=
  cameraRef w = true
  /\ (takePictureAsync w = Raised e
      \/ exists uri, takePictureAsync w = Returned (Some uri)
         /\ (manipulateAsync w uri = Raised e
             \/ exists resized, manipulateAsync w uri = Returned resized
                /\ (fetch w resized = Raised e
                    \/ exists response, fetch w resized = Returned response
                       /\ json w response = Raised e))).

(* A world that answers with a given body; used to exhibit cycles. *)
Definition answering (body : DetectResult) (now1 now2 : Z) : World :=
  {| cameraRef := true;
     takePictureAsync := Returned (Some "file:///photo.jpg");
     manipulateAsync := fun _ => Returned "/9j/4AAQ";
     fetch := fun _ => Returned "200";
     json := fun _ => Returned body;
     Date_now1 := now1;
     Date_now2 := now2 |}.

(* A world whose camera raises. *)
Definition camera_glitch : World :=
  {| cameraRef := true;
     takePictureAsync := Raised "Camera is not ready";
     manipulateAsync := fun _ => Returned "/9j/4AAQ";
     fetch := fun _ => Returned "200";
     json := fun _ => Returned (mkDetectResult None);
     Date_now1 := 1700000000000;
     Date_now2 := 1700000000000 |}.

(* The clock does not run backwards between the two readings a cycle
   makes in its last, synchronous part. *)
Definition world_ok (w : World) : Prop := Date_now1 w <= Date_now2 w.

Definition event_ok (ev : Event) : Prop :=
  match ev with
  | Tick w => world_ok w
  | _ => True
  end.

(* Of two emissions for one name, the later one was checked more than the
   cool-down after the earlier one was recorded. *)
Definition apart (es : list Emission) : Prop :=
  forall (i j : nat) e1 e2,
    es !! i = Some e1 -> es !! j = Some e2 -> (i < j)%nat ->
    name (shown e1) = name (shown e2) ->
    COOLDOWN_MS < checked_at e2 - recorded_at e1.

(* What holds of a session along a run: the table of last detection times
   is at or past the recorded time of everything shown so far. *)
Record session_inv (s : Session) : Prop := mkInv {
  inv_inflight : Forall world_ok (inflight s);
  inv_recorded : forall e, e ∈ emitted s ->
    checked_at e <= recorded_at e
    /\ exists t, lastDetectionTime (app s) !! name (shown e) = Some t
                /\ recorded_at e <= t;
  inv_apart : apart (emitted s)
}.

(* --------------------------------------------------------------------- *)
(* The image cache of the camera screen                                   *)
(* --------------------------------------------------------------------- *)

(* `${v}` for a value that may be null, as FileSystem.cacheDirectory. *)
Definition template (v : option string) : string := default "null" v.

(* expo-file-system and Image.resolveAssetSource as the screens use them:
   the cache directory, the uri of a bundled asset, and a download of a
   uri to a path. *)
Record FileSystem : Type := mkFileSystem {
  cacheDirectory : option string;
  resolveAssetSource : string -> outcome string;
  downloadAsync : string -> string -> outcome unit
}.

(* Object.entries(profileData), in the order of the literal. *)
Definition profileEntries : list (string * Profile.ProfileInfo) :=
  [("Daniel", Profile.mkProfileInfo "Daniel Kim" "Your Grandson"
                "../assets/images/daniel-half.png" Profile.DanielIcons);
   ("Michelle", Profile.mkProfileInfo "Michelle Feng" "Your Granddaughter"
                "../assets/images/michelle-half.png" Profile.MichelleIcons)].

(* The body of the try of one turn of the loop:
     const asset = Image.resolveAssetSource(profile.image);
     const cacheKey = `${FileSystem.cacheDirectory}${name}.jpg`;
     await FileSystem.downloadAsync(asset.uri, cacheKey);
     cache[name] = cacheKey;
   It returns the cacheKey to store. *)
Definition cacheImage (fs : FileSystem) (n : string) (profile : Profile.ProfileInfo)
  : outcome string :=
  asset ← resolveAssetSource fs (Profile.image profile);
  let cacheKey := template (cacheDirectory fs) +:+ n +:+ ".jpg" in
  _ ← downloadAsync fs asset cacheKey;
  mret cacheKey.

(* for (const [name, profile] of Object.entries(profileData)) {
     try { ... } catch (error) { console.error('Error caching image:', error); } }
   [logged] are the errors given to console.error, oldest first.  The
   names written to cache are the own keys of profileData. *)
Fixpoint cacheImages_loop (fs : FileSystem) (entries : list (string * Profile.ProfileInfo))
    (cache : gmap string string) (logged : list string)
  : gmap string string * list string :=
  match entries with
  | [] => (cache, logged)
  | (n, profile) :: rest =>
      match cacheImage fs n profile with
      | Returned cacheKey => cacheImages_loop fs rest (<[n := cacheKey]> cache) logged
      | Raised e => cacheImages_loop fs rest cache (logged ++ [e])
      end
  end.

(* const cacheImages = async () => { const cache = {}; for ...; setImageCache(cache); } *)
Definition cacheImages (fs : FileSystem) (app : App) : App * list string :=
  let r := cacheImages_loop fs profileEntries ∅ [] in
  ({| detectedPerson := detectedPerson app;
      lastDetectionTime := lastDetectionTime app;
      imageCache := fst r |}, snd r).

(* A file system where the asset of Daniel cannot be fetched and the rest
   works. *)
Definition daniel_offline : FileSystem :=
  {| cacheDirectory := Some "file:///cache/";
     resolveAssetSource := fun img => Returned ("asset:/" +:+ img);
     downloadAsync := fun uri _ =>
       if decide (uri = "asset:/../assets/images/daniel-half.png")
       then Raised "Network request failed" else Returned tt |}.

(* --------------------------------------------------------------------- *)
(* The bottom sheet and its gesture handler                               *)
(* --------------------------------------------------------------------- *)

(* const SWIPE_THRESHOLD = 50; *)
Definition SWIPE_THRESHOLD : float := 50%float.

(* const SHEET_HEIGHT = height * 0.45; with height the window's height. *)
Definition SHEET_HEIGHT (height : float) : float := (height * 0.45)%float.

Definition is_neg_zero (x : float) : bool :=
  match classify x with
  | NZero => true
  | _ => false
  end.

(* Math.min and Math.max of two numbers: NaN if either is NaN, and -0 is
   less than +0. *)
Definition Math_min (a b : float) : float :=
  if is_nan a || is_nan b then nan
  else if (a <? b)%float then a
  else if (b <? a)%float then b
  else if is_neg_zero a then a else b.

Definition Math_max (a b : float) : float :=
  if is_nan a || is_nan b then nan
  else if (a <? b)%float then b
  else if (b <? a)%float then a
  else if is_neg_zero a then b else a.

(* The detectedPerson state with isCardVisible and the value last given to
   slideUp (directly, or as the target of withSpring). *)
Record Sheet : Type := mkSheet {
  sheet_app : App;
  isCardVisible : bool;
  slideUp : float
}.

(* onActive: (event, context) => {
     const newValue = context.startY + event.translationY / SHEET_HEIGHT;
     slideUp.value = Math.max(0, Math.min(1, newValue)); } *)
Definition onActive (height startY translationY : float) (sh : Sheet) : Sheet :=
  let newValue := (startY + translationY / SHEET_HEIGHT height)%float in
  {| sheet_app := sheet_app sh; isCardVisible := isCardVisible sh;
     slideUp := Math_max 0 (Math_min 1 newValue) |}.

(* onEnd: (event) => {
     if (event.translationY > SWIPE_THRESHOLD) {
       slideUp.value = withSpring(0);
       runOnJS(setIsCardVisible)(false);
       runOnJS(setDetectedPerson)(null);
     } else { slideUp.value = withSpring(1); } }
   The two state updates are separate jobs on the JavaScript thread; this
   is the sheet once both have run. *)
Definition onEnd (translationY : float) (sh : Sheet) : Sheet :=
  if (SWIPE_THRESHOLD <? translationY)%float
  then {| sheet_app := {| detectedPerson := None;
                          lastDetectionTime := lastDetectionTime (sheet_app sh);
                          imageCache := imageCache (sheet_app sh) |};
          isCardVisible := false; slideUp := 0 |}
  else {| sheet_app := sheet_app sh; isCardVisible := isCardVisible sh; slideUp := 1 |}.

(* --------------------------------------------------------------------- *)
(* The table of last detection times as a replay of what was shown        *)
(* --------------------------------------------------------------------- *)

(* lastDetectionTime.current[e.name] = e.recorded_at for each emission. *)
Definition replay (es : list Emission) (last : gmap string Z) : gmap string Z :=
  fold_left (fun m e => <[name (shown e) := recorded_at e]> m) es last.

(* --------------------------------------------------------------------- *)
(* The profile page (mobile/app/profile.tsx)                              *)
(* --------------------------------------------------------------------- *)

(* const navigateToProfile = (name) => { router.push(`/profile?name=${name}`); }; *)
Definition navigateToProfile (n : string) : string := "/profile?name=" +:+ n.

Module ProfilePage.

Record AudioAlbum : Type := mkAudioAlbum {
  title : string;
  addedTime : string
}.

(* An entry of the table of ProfilePage. *)
Record Info : Type := mkInfo {
  fullName : string;
  relation : string;
  nicknames : string;
  audioAlbums : list AudioAlbum;
  photoAlbums : list string;
  image : string;
  IconComponent : Profile.Icon
}.

Definition table : gmap string Info :=
  <["Daniel" :=
      mkInfo "Daniel Kim" "Your Grandson" "Danny, Dan"
        [mkAudioAlbum "We need to talk soon! Maybe" "2 hrs ago";
         mkAudioAlbum "Grandma, how are you? Are you" "5 days ago"]
        ["../assets/images/album1.png"; "../assets/images/album2.png";
         "../assets/images/album3.png"]
        "../assets/images/daniel.png" Profile.DanielIcons]>
  (<["Michelle" :=
      mkInfo "Michelle Feng" "Your Granddaughter" "Mishy, Love"
        [mkAudioAlbum "Let's go dancing soon! I miss" "5 hrs ago";
         mkAudioAlbum "Hi Grandma! I love you mwah" "3 days ago"]
        ["../assets/images/album4.png"; "../assets/images/album5.png";
         "../assets/images/album6.png"]
        "../assets/images/michelle.png" Profile.MichelleIcons]>
   ∅).

(* const profileInfo = { ... }[name as string]; with [n] the name parameter
   of the route as a property key. *)
Definition profileInfo (n : string) : property Info := js_get table n.

(* useState({}) and useState(false) *)
Record State : Type := mkState {
  imageCache : gmap string string;
  isImageLoaded : bool
}.

Definition initial : State := {| imageCache := ∅; isImageLoaded := false |}.

(* for (let i = 0; i < profileInfo.photoAlbums.length; i++) {
     const asset = Image.resolveAssetSource(profileInfo.photoAlbums[i]);
     const cacheKey = `${FileSystem.cacheDirectory}${name}_album_${i}.jpg`;
     await FileSystem.downloadAsync(asset.uri, cacheKey);
     albumCache[`album_${i}`] = cacheKey; }
   from index [i] on, over the photos left. *)
Fixpoint cacheAlbums (fs : FileSystem) (n : string) (photos : list string) (i : nat)
    (albumCache : gmap string string) : outcome (gmap string string) :=
  match photos with
  | [] => mret albumCache
  | photo :: rest =>
      asset ← resolveAssetSource fs photo;
      let cacheKey :=
        template (cacheDirectory fs) +:+ n +:+ "_album_" +:+ pretty i +:+ ".jpg" in
      _ ← downloadAsync fs asset cacheKey;
      cacheAlbums fs n rest (S i) (<["album_" +:+ pretty i := cacheKey]> albumCache)
  end.

(* The body of the try of cacheImages; it returns the object given to
   setImageCache, { profile: mainCacheKey, ...albumCache }. *)
Definition cacheAll (fs : FileSystem) (n : string) (info : Info)
  : outcome (gmap string string) :=
  mainAsset ← resolveAssetSource fs (image info);
  let mainCacheKey := template (cacheDirectory fs) +:+ n +:+ "_profile.jpg" in
  _ ← downloadAsync fs mainAsset mainCacheKey;
  albumCache ← cacheAlbums fs n (photoAlbums info) 0 ∅;
  mret (albumCache ∪ {["profile" := mainCacheKey]}).

(* const cacheImages = async () => {
     if (!profileInfo) return;
     try { ...; setImageCache({...}); setIsImageLoaded(true); }
     catch (error) { console.error('Error caching images:', error);
                     setIsImageLoaded(true); } };
   with the errors given to console.error.  An inherited profileInfo is
   truthy and has no image and no photoAlbums: the try ends in a TypeError
   (reading uri of the asset that is not there, or length of undefined). *)
Definition cacheImages (fs : FileSystem) (n : string) (st : State)
  : State * list string :=
  match profileInfo n with
  | Missing => (st, [])
  | Own info =>
      match cacheAll fs n info with
      | Returned cache => ({| imageCache := cache; isImageLoaded := true |}, [])
      | Raised e => ({| imageCache := imageCache st; isImageLoaded := true |}, [e])
      end
  | Inherited => ({| imageCache := imageCache st; isImageLoaded := true |}, ["TypeError"])
  end.

(* What the page shows; [photos] is the grid of Photo Albums, which the
   page draws a second time under Recent Albums. *)
Inductive View : Type :=
| NotFound
| Page (headerImage : ImageSource) (headerName headerRelation : string)
       (icons : Profile.Icon) (nickname : string)
       (audio : list AudioAlbum) (photos : list ImageSource).

(* imageCache[key] ? { uri: imageCache[key] } : asset, for the keys
   profile and album_i the page reads, none of which is inherited. *)
Definition source (cache : gmap string string) (key asset : string) : ImageSource :=
  match cache !! key with
  | Some uri => if decide (uri = "") then Asset asset else Uri uri
  | None => Asset asset
  end.

(* if (!profileInfo) return <Text>Profile not found</Text>; return (...)
   An inherited profileInfo is truthy: the not-found branch is skipped and
   profileInfo.audioAlbums.map throws, audioAlbums being undefined. *)
Definition render (n : string) (st : State) : outcome View :=
  match profileInfo n with
  | Missing => Returned NotFound
  | Own info =>
      Returned
        (Page (source (imageCache st) "profile" (image info))
              (fullName info) (relation info) (IconComponent info) (nicknames info)
              (audioAlbums info)
              (imap (fun index photo =>
                       source (imageCache st) ("album_" +:+ pretty index) photo)
                    (photoAlbums info)))
  | Inherited => Raised "TypeError"
  end.

End ProfilePage.

(* The asset is resolved and downloaded to the path. *)
Definition fetched (fs : FileSystem) (asset path : string) : Prop :=
  exists uri, resolveAssetSource fs asset = Returned uri
              /\ downloadAsync fs uri path = Returned tt.

(* `${FileSystem.cacheDirectory}${name}_profile.jpg` *)
Definition mainCacheKey (fs : FileSystem) (n : string) : string :=
  template (cacheDirectory fs) +:+ n +:+ "_profile.jpg".

(* `${FileSystem.cacheDirectory}${name}_album_${i}.jpg` *)
Definition albumCacheKey (fs : FileSystem) (n : string) (i : nat) : string :=
  template (cacheDirectory fs) +:+ n +:+ "_album_" +:+ pretty i +:+ ".jpg".

(* A file system where everything can be fetched. *)
Definition online : FileSystem :=
  {| cacheDirectory := Some "file:///cache/";
     resolveAssetSource := fun img => Returned ("asset:/" +:+ img);
     downloadAsync := fun _ _ => Returned tt |}.

(* ===================================================================== *)
(* Properties                                                             *)
(* ===================================================================== *)

(* --------------------------------------------------------------------- *)
(* The cool-down test                                                     *)
(* --------------------------------------------------------------------- *)

Section Cooldown.

Implicit Types (last : gmap string Z) (p : string) (now t : Z).

Lemma inherited_proto p : p = "__proto__" -> inherited p = true.
Proof. now intros ->. Qed.

Lemma js_get_plain {V : Type} (o : gmap string V) p :
  inherited p = false ->
  js_get o p = match o !! p with Some v => Own v | None => Missing end.
Proof.
  intros H. unfold js_get.
  destruct (decide (p = "__proto__")) as [E|_].
  - rewrite (inherited_proto p E) in H. discriminate.
  - destruct (o !! p); [reflexivity | now rewrite H].
Qed.

Lemma js_get_own {V : Type} (o : gmap string V) p (v : V) :
  p <> "__proto__" -> o !! p = Some v -> js_get o p = Own v.
Proof.
  intros Hp H. unfold js_get. destruct (decide (p = "__proto__")); [done|]. now rewrite H.
Qed.

Lemma js_set_insert {V : Type} (o : gmap string V) p (v : V) :
  p <> "__proto__" -> js_set o p v = <[p := v]> o.
Proof. intros Hp. unfold js_set. now destruct (decide (p = "__proto__")). Qed.

Lemma or_zero_own t : or_zero (Own t) = Some t.
Proof. simpl. destruct (Z.eqb_spec t 0); congruence. Qed.

(* What a passed test tells: the name is not __proto__, a name without an
   entry is not an inherited one, and the clock is more than the cool-down
   past the stored time, 0 standing for no entry. *)
Lemma canShowPerson_true last now p :
  canShowPerson last now p = true ->
  p <> "__proto__"
  /\ (last !! p = None -> inherited p = false)
  /\ COOLDOWN_MS < now - default 0 (last !! p).
Proof.
  unfold canShowPerson, js_get.
  destruct (decide (p = "__proto__")) as [|Hp]; [discriminate|].
  destruct (last !! p) as [t|]; simpl.
  - destruct (Z.eqb_spec t 0) as [->|_]; intros H; apply Z.ltb_lt in H; now repeat split.
  - destruct (inherited p); simpl; [discriminate|].
    intros H. apply Z.ltb_lt in H. now repeat split.
Qed.

Lemma canShowPerson_absent last now p :
  inherited p = false -> last !! p = None ->
  canShowPerson last now p = (COOLDOWN_MS <? now).
Proof.
  intros Hi H. unfold canShowPerson. rewrite (js_get_plain _ _ Hi), H. simpl.
  now rewrite Z.sub_0_r.
Qed.

Lemma canShowPerson_present last now p t :
  p <> "__proto__" -> last !! p = Some t ->
  canShowPerson last now p = (COOLDOWN_MS <? now - t).
Proof.
  intros Hp H. unfold canShowPerson. now rewrite (js_get_own _ _ _ Hp H), or_zero_own.
Qed.

(* A name that is only inherited is refused at every clock reading. *)
Lemma canShowPerson_inherited last now p :
  inherited p = true -> last !! p = None -> canShowPerson last now p = false.
Proof.
  intros Hi H. unfold canShowPerson, js_get.
  destruct (decide (p = "__proto__")); [reflexivity|]. now rewrite H, Hi.
Qed.

(* Within the cool-down of a stored time the test fails. *)
Lemma canShowPerson_within last now p t :
  last !! p = Some t -> now - t <= COOLDOWN_MS -> canShowPerson last now p = false.
Proof.
  intros H Hle. destruct (decide (p = "__proto__")) as [Hp|Hp].
  - unfold canShowPerson, js_get. now destruct (decide (p = "__proto__")).
  - rewrite (canShowPerson_present _ _ _ _ Hp H). now apply Z.ltb_ge.
Qed.

Lemma announce_shows now1 now2 (app : App) (d : DetectedPerson) rest :
  (SIMILARITY_THRESHOLD <? similarity d)%float = true ->
  canShowPerson (lastDetectionTime app) now1 (name d) = true ->
  announce now1 now2 app (mkDetectResult (Some (d :: rest)))
  = (show app d now2, [mkEmission d now1 now2]).
Proof. intros Hs Hc. unfold announce. simpl. now rewrite Hs, Hc. Qed.

Lemma announce_drops now1 now2 (app : App) (d : DetectedPerson) rest :
  (SIMILARITY_THRESHOLD <? similarity d)%float
    && canShowPerson (lastDetectionTime app) now1 (name d) = false ->
  announce now1 now2 app (mkDetectResult (Some (d :: rest))) = (app, []).
Proof. intros H. unfold announce. simpl. now rewrite H. Qed.

Lemma show_table (app : App) (d : DetectedPerson) now :
  name d <> "__proto__" ->
  lastDetectionTime (show app d now) = <[name d := now]> (lastDetectionTime app).
Proof. intros Hp. unfold show. simpl. now apply js_set_insert. Qed.

Lemma show_records (app : App) (d : DetectedPerson) now :
  name d <> "__proto__" ->
  lastDetectionTime (show app d now) !! name d = Some now.
Proof. intros Hp. rewrite (show_table _ _ _ Hp). apply lookup_insert_eq. Qed.

(** C4, as the code has it.  A name with no entry in lastDetectionTime that
    is not a property name inherited from Object.prototype reads as last
    shown at time 0, so it may be shown exactly when the clock reads more
    than 30000 ms: always for a clock set to the present, never within the
    first thirty seconds after the epoch. *)
Theorem absent_id_eligible last p now :
  inherited p = false ->
  last !! p = None ->
  (canShowPerson last now p = true <-> COOLDOWN_MS < now).
Proof.
  intros Hi H. rewrite (canShowPerson_absent _ _ _ Hi H). apply Z.ltb_lt.
Qed.

Lemma absent_id_eligible_witness :
  canShowPerson ∅ 1700000000000 "Daniel" = true <-> COOLDOWN_MS < 1700000000000.
Proof. apply (absent_id_eligible ∅ "Daniel" 1700000000000); reflexivity. Defined.

(** C4 as stated fails: "Michelle" has no entry, the clock reads 30000,
    and canShowPerson answers false; and "constructor" has no entry either,
    but the lookup finds the function every object inherits under that
    name, and canShowPerson answers false with the clock at the present. *)
Lemma absent_id_refused_at_30000 :
  (∅ : gmap string Z) !! "Michelle" = None
  /\ canShowPerson ∅ 30000 "Michelle" = false
  /\ (∅ : gmap string Z) !! "constructor" = None
  /\ canShowPerson ∅ 1700000000000 "constructor" = false.
Proof. repeat split; reflexivity. Qed.

(** C1, as the code has it.  For a name that is not a property name
    inherited from Object.prototype and a clock reading t1 above 30000 ms,
    the test lets the person of a detection through if and only if the name
    was never recorded or t1 is more than 30000 ms past the recorded time;
    when it does (and the similarity passed), the cycle shows the person
    and stores the reading t2 of the clock it takes next; when it does
    not, the cycle changes nothing.  In particular, for t0 above 30000 ms
    and a name never recorded: shown at t0, refused at t0 + 29 s, let
    through again at t0 + 31 s. *)
Theorem cooldown_gate_allow (app : App) (d : DetectedPerson)
    (rest : list DetectedPerson) (t0 t1 t2 : Z) :
  inherited (name d) = false ->
  COOLDOWN_MS < t1 ->
  (SIMILARITY_THRESHOLD <? similarity d)%float = true ->
  let last := lastDetectionTime app in
  let p := name d in
  let result := mkDetectResult (Some (d :: rest)) in
  (canShowPerson last t1 p = true
     <-> last !! p = None \/ exists t, last !! p = Some t /\ COOLDOWN_MS < t1 - t)
  /\ (canShowPerson last t1 p = true ->
        announce t1 t2 app result = (show app d t2, [mkEmission d t1 t2])
        /\ lastDetectionTime (show app d t2) !! p = Some t2)
  /\ (canShowPerson last t1 p = false -> announce t1 t2 app result = (app, []))
  /\ (COOLDOWN_MS < t0 -> last !! p = None ->
        canShowPerson last t0 p = true
        /\ canShowPerson (lastDetectionTime (show app d t0)) (t0 + 29000) p = false
        /\ canShowPerson (lastDetectionTime (show app d t0)) (t0 + 31000) p = true).
Proof.
  intros Hi Ht1 Hs last p result.
  assert (Hp : p <> "__proto__").
  { intros E. rewrite (inherited_proto (name d) E) in Hi. discriminate. }
  repeat split.
  - intros Hc. destruct (last !! p) as [t|] eqn:E; [right | now left].
    exists t. split; [reflexivity|].
    rewrite (canShowPerson_present _ _ _ _ Hp E) in Hc. now apply Z.ltb_lt.
  - intros [E | [t [E Hlt]]].
    + rewrite (canShowPerson_absent _ _ _ Hi E). now apply Z.ltb_lt.
    + rewrite (canShowPerson_present _ _ _ _ Hp E). now apply Z.ltb_lt.
  - now apply announce_shows.
  - now apply show_records.
  - intros Hc. apply announce_drops. fold last p. rewrite Hc. apply andb_false_r.
  - rewrite (canShowPerson_absent _ _ _ Hi H0). now apply Z.ltb_lt.
  - rewrite (canShowPerson_present _ _ _ _ Hp (show_records app d t0 Hp)).
    apply Z.ltb_ge. unfold COOLDOWN_MS. lia.
  - rewrite (canShowPerson_present _ _ _ _ Hp (show_records app d t0 Hp)).
    apply Z.ltb_lt. unfold COOLDOWN_MS. lia.
Qed.

Lemma cooldown_gate_allow_witness :
  let app := mkApp None ∅ ∅ in
  let d := mkDetectedPerson "Daniel" 0.75 "Your Grandson" in
  announce 1700000000000 1700000000001 app (mkDetectResult (Some [d]))
  = (show app d 1700000000001, [mkEmission d 1700000000000 1700000000001]).
Proof.
  intros app d.
  apply (cooldown_gate_allow app d [] 1700000000000 1700000000000 1700000000001);
    reflexivity.
Defined.

(** C1 as stated fails: "Daniel" was never shown, the similarity passes,
    the clock reads 1000 ms, and the cycle refuses to show him; and a
    person named "constructor" who was never shown and whose similarity
    passes is refused with the clock at the present, the lookup of the name
    finding the function every object inherits. *)
Lemma never_shown_refused_near_epoch :
  let app := mkApp None ∅ ∅ in
  let d := mkDetectedPerson "Daniel" 0.75 "Your Grandson" in
  let c := mkDetectedPerson "constructor" 0.75 "Neighbour" in
  lastDetectionTime app !! name d = None
  /\ (SIMILARITY_THRESHOLD <? similarity d)%float = true
  /\ canShowPerson (lastDetectionTime app) 1000 (name d) = false
  /\ announce 1000 1000 app (mkDetectResult (Some [d])) = (app, [])
  /\ lastDetectionTime app !! name c = None
  /\ (SIMILARITY_THRESHOLD <? similarity c)%float = true
  /\ canShowPerson (lastDetectionTime app) 1700000000000 (name c) = false
  /\ announce 1700000000000 1700000000000 app (mkDetectResult (Some [c])) = (app, []).
Proof. repeat split; reflexivity. Qed.

End Cooldown.

(* --------------------------------------------------------------------- *)
(* The similarity test                                                    *)
(* --------------------------------------------------------------------- *)

Section Threshold.

Implicit Types (app : App) (d : DetectedPerson) (rest : list DetectedPerson).

(* The order of binary64 numbers is asymmetric (NaN compares with nothing). *)
Lemma SFltb_asym (a b : spec_float) : SFltb a b = true -> SFltb b a = false.
Proof.
  unfold SFltb.
  destruct a as [sa|sa| |sa ma ea], b as [sb|sb| |sb mb eb]; simpl;
    try destruct sa; try destruct sb; simpl; try congruence.
  all: rewrite (Z.compare_antisym ea eb); destruct (ea ?= eb)%Z; simpl; try congruence.
  all: pose proof (Pos.compare_cont_antisym mb ma Eq) as A; simpl in A; rewrite <- A;
    destruct (Pos.compare_cont Eq mb ma); simpl; congruence.
Qed.

Lemma float_ltb_asym (x y : float) :
  (x <? y)%float = true -> (y <? x)%float = false.
Proof. rewrite !ltb_spec. apply SFltb_asym. Qed.

(* The binary64 number the literal 0.6 stands for: 5404319552844595 * 2^-53. *)
Lemma SIMILARITY_THRESHOLD_bits :
  Prim2SF SIMILARITY_THRESHOLD = S754_finite false 5404319552844595 (-53).
Proof. reflexivity. Qed.

(** C2, as the code has it.  The test is similarity > 0.6, strict: with the
    cool-down out of the way, the first person is shown if and only if its
    similarity is greater than 0.6; a similarity of exactly 0.6 is not
    shown, one unit in the last place below 0.6 is not shown, and one unit
    in the last place above 0.6 is shown. *)
Theorem threshold_is_strict app d rest (now1 now2 : Z) :
  canShowPerson (lastDetectionTime app) now1 (name d) = true ->
  let r := announce now1 now2 app (mkDetectResult (Some (d :: rest))) in
  (r = (show app d now2, [mkEmission d now1 now2])
     <-> (0.6 <? similarity d)%float = true)
  /\ (r = (app, []) <-> (0.6 <? similarity d)%float = false)
  /\ (similarity d = 0.6%float -> r = (app, []))
  /\ (similarity d = next_down 0.6 -> r = (app, []))
  /\ (similarity d = next_up 0.6 -> r = (show app d now2, [mkEmission d now1 now2])).
Proof.
  intros Hc r. subst r. unfold announce, SIMILARITY_THRESHOLD. simpl. rewrite Hc.
  rewrite andb_true_r.
  repeat split.
  - destruct (0.6 <? similarity d)%float; [reflexivity | intros [=]].
  - intros ->. reflexivity.
  - destruct (0.6 <? similarity d)%float; [intros [=] | reflexivity].
  - intros ->. reflexivity.
  - intros ->. reflexivity.
  - intros ->. reflexivity.
  - intros ->. reflexivity.
Qed.

Lemma threshold_is_strict_witness :
  let app := mkApp None ∅ ∅ in
  let d := mkDetectedPerson "Michelle" (next_up 0.6) "Your Granddaughter" in
  announce 1700000000000 1700000000000 app (mkDetectResult (Some [d]))
  = (show app d 1700000000000, [mkEmission d 1700000000000 1700000000000]).
Proof.
  intros app d.
  apply (threshold_is_strict app d [] 1700000000000 1700000000000); reflexivity.
Defined.

(** C2 as stated fails: "Michelle" is out of cool-down and her similarity
    is exactly 0.6, yet nothing is shown and nothing is recorded. *)
Lemma similarity_at_threshold_dropped :
  let app := mkApp None ∅ ∅ in
  let d := mkDetectedPerson "Michelle" 0.6 "Your Granddaughter" in
  similarity d = SIMILARITY_THRESHOLD
  /\ canShowPerson (lastDetectionTime app) 1700000000000 (name d) = true
  /\ announce 1700000000000 1700000000000 app (mkDetectResult (Some [d])) = (app, []).
Proof. repeat split; reflexivity. Qed.

End Threshold.

(* --------------------------------------------------------------------- *)
(* One cycle                                                              *)
(* --------------------------------------------------------------------- *)

Section Cycle.

Implicit Types (w : World) (app : App) (result : DetectResult)
  (d : DetectedPerson) (rest : list DetectedPerson) (e : string).

Lemma cycle_answers w app result :
  answers w result ->
  captureAndSendFrame w app
  = Returned (announce (Date_now1 w) (Date_now2 w) app result).
Proof.
  intros [Hc (uri & resized & response & H1 & H2 & H3 & H4)].
  unfold captureAndSendFrame. rewrite Hc, H1. simpl.
  rewrite H2. simpl. rewrite H3. simpl. rewrite H4. reflexivity.
Qed.

Lemma cycle_raises w app e :
  raises w e -> captureAndSendFrame w app = Raised e.
Proof.
  intros [Hc H]. unfold captureAndSendFrame. rewrite Hc.
  destruct H as [H1 | (uri & H1 & H)]; rewrite H1; simpl; [reflexivity|].
  destruct H as [H2 | (resized & H2 & H)]; rewrite H2; simpl; [reflexivity|].
  destruct H as [H3 | (response & H3 & H4)]; rewrite H3; simpl; [reflexivity|].
  rewrite H4. reflexivity.
Qed.

(* A cycle shows at most one person. *)
Lemma announce_at_most_one now1 now2 app result :
  (length (snd (announce now1 now2 app result)) <= 1)%nat.
Proof.
  unfold announce. destruct (persons result) as [[|p0 rest]|]; simpl; try lia.
  destruct (_ && _); simpl; lia.
Qed.

Lemma cycle_at_most_one w app app' evs :
  captureAndSendFrame w app = Returned (app', evs) -> (length evs <= 1)%nat.
Proof.
  unfold captureAndSendFrame. destruct (cameraRef w); simpl.
  - destruct (takePictureAsync w) as [[uri|]|]; simpl; try discriminate.
    + destruct (manipulateAsync w uri) as [resized|]; simpl; try discriminate.
      destruct (fetch w resized) as [response|]; simpl; try discriminate.
      destruct (json w response) as [result|]; simpl; try discriminate.
      intros [= H].
      pose proof (announce_at_most_one (Date_now1 w) (Date_now2 w) app result) as L.
      now rewrite H in L.
    + intros [= <- <-]. simpl. lia.
  - intros [= <- <-]. simpl. lia.
Qed.

(** C5.  A cycle whose response has no person (persons missing or empty),
    or whose persons all have a similarity below 0.6, so that the best one
    is below 0.6, shows nothing and leaves the component, and with it the
    table of last detection times, as it was. *)
Theorem unknown_face_is_silent w app result :
  answers w result ->
  (persons result = None
   \/ persons result = Some []
   \/ exists ps, persons result = Some ps
        /\ Forall (fun p => (similarity p <? SIMILARITY_THRESHOLD)%float = true) ps) ->
  captureAndSendFrame w app = Returned (app, [])
  /\ forall app' evs, captureAndSendFrame w app = Returned (app', evs) ->
       evs = [] /\ lastDetectionTime app' = lastDetectionTime app.
Proof.
  intros Hw H.
  assert (E : captureAndSendFrame w app = Returned (app, [])).
  { rewrite (cycle_answers _ _ _ Hw). f_equal. unfold announce.
    destruct H as [-> | [-> | (ps & -> & Hall)]]; try reflexivity.
    destruct ps as [|p0 rest]; [reflexivity|].
    apply Forall_cons in Hall as [Hlt _].
    now rewrite (float_ltb_asym _ _ Hlt). }
  split; [exact E|]. intros app' evs. rewrite E. now intros [= <- <-].
Qed.

Lemma unknown_face_is_silent_witness :
  let app := mkApp None (<["Daniel" := 1700000000000]> ∅) ∅ in
  let body := mkDetectResult (Some [mkDetectedPerson "Daniel" 0.4 "Your Grandson"]) in
  captureAndSendFrame (answering body 1800000000000 1800000000000) app
  = Returned (app, []).
Proof.
  intros app body.
  apply (unknown_face_is_silent (answering body 1800000000000 1800000000000) app body).
  - split; [reflexivity|]. eexists _, _, _. repeat split; reflexivity.
  - right; right. eexists. split; [reflexivity|].
    repeat constructor.
Defined.

(** C9.  A cycle looks at persons[0] only.  Whatever follows the first
    person in the response, the cycle does what it would do had the
    response held the first person alone; what it shows, if anything, is
    the first person; and when the first person fails the similarity test
    or is in cool-down, nothing is shown, whoever else is in the list. *)
Theorem only_first_person_considered w app (p0 : DetectedPerson) rest :
  answers w (mkDetectResult (Some (p0 :: rest))) ->
  let now1 := Date_now1 w in
  let now2 := Date_now2 w in
  captureAndSendFrame w app
  = Returned (announce now1 now2 app (mkDetectResult (Some [p0])))
  /\ (forall app' evs, captureAndSendFrame w app = Returned (app', evs) ->
        forall ev, ev ∈ evs -> shown ev = p0)
  /\ ((SIMILARITY_THRESHOLD <? similarity p0)%float
        && canShowPerson (lastDetectionTime app) now1 (name p0) = false ->
      captureAndSendFrame w app = Returned (app, [])).
Proof.
  intros Hw now1 now2. rewrite (cycle_answers _ _ _ Hw). fold now1 now2.
  repeat split.
  - intros app' evs [= H] ev Hin. revert H. unfold announce. simpl.
    destruct (_ && _).
    + intros [= <- <-]. apply list_elem_of_singleton in Hin. now subst ev.
    + intros [= <- <-]. inversion Hin.
  - intros H. f_equal. now apply announce_drops.
Qed.

Lemma only_first_person_considered_witness :
  let app := mkApp None ∅ ∅ in
  let body := mkDetectResult (Some [mkDetectedPerson "Daniel" 0.3 "Your Grandson";
                                    mkDetectedPerson "Michelle" 0.95 "Your Granddaughter"]) in
  captureAndSendFrame (answering body 1700000000000 1700000000000) app
  = Returned (app, []).
Proof.
  intros app body.
  apply (only_first_person_considered (answering body 1700000000000 1700000000000) app
           (mkDetectedPerson "Daniel" 0.3 "Your Grandson")
           [mkDetectedPerson "Michelle" 0.95 "Your Granddaughter"]).
  - split; [reflexivity|]. eexists _, _, _. repeat split; reflexivity.
  - reflexivity.
Defined.

End Cycle.

(* --------------------------------------------------------------------- *)
(* The card and the profile table                                         *)
(* --------------------------------------------------------------------- *)

Section CardOfProfile.

Implicit Types (app : App) (d : DetectedPerson) (n : string).

Lemma profileData_keys n :
  is_Some (profileData !! n) <-> n = "Daniel" \/ n = "Michelle".
Proof.
  unfold profileData. rewrite !lookup_insert.
  repeat case_decide; subst; rewrite ?lookup_empty; split;
    intros K; eauto; try (destruct K as [? [=]]); destruct K; congruence.
Qed.

(* The keys of profileData are no inherited names. *)
Lemma profileData_not_inherited n :
  is_Some (profileData !! n) -> inherited n = false /\ n <> "__proto__".
Proof. intros H. apply profileData_keys in H as [-> | ->]; split; done. Qed.

Lemma js_get_profileData n :
  js_get profileData n
  = match profileData !! n with
    | Some info => Own info
    | None => if inherited n then Inherited else Missing
    end.
Proof.
  unfold js_get. destruct (decide (n = "__proto__")) as [->|]; [reflexivity|].
  reflexivity.
Qed.

Lemma card_Some app d :
  detectedPerson app = Some d ->
  forall c, card app = Returned (Some c) <->
    exists info, profileData !! name d = Some info
      /\ c = mkCard (header_source (imageCache app) (name d) info)
                    (Profile.fullName info) (Profile.relation info)
                    (Profile.IconComponent info) (name d).
Proof.
  intros Hd c. unfold card. rewrite Hd, js_get_profileData.
  destruct (profileData !! name d) as [info|]; simpl; split.
  - intros [= <-]. now exists info.
  - intros (info' & [= <-] & ->). reflexivity.
  - destruct (inherited (name d)); discriminate.
  - intros (info' & [=] & _).
Qed.

(** X14.  The card shows the details of a detected person only when the
    person's name is a key of profileData, 'Daniel' or 'Michelle', and then
    shows that entry's full name, relation and image.  A first person with
    any other name that is no property name inherited from Object.prototype
    and that passes the similarity test and the cool-down is taken all the
    same: setDetectedPerson is called with it and the clock reading is
    stored under its name; but no card is drawn for it. *)
Theorem card_only_for_profiled app d (rest : list DetectedPerson) (now1 now2 : Z) :
  (forall a p, detectedPerson a = Some p ->
     ((exists c, card a = Returned (Some c)) <-> name p = "Daniel" \/ name p = "Michelle")
     /\ (forall c, card a = Returned (Some c) ->
           exists info, profileData !! name p = Some info
             /\ nameText c = Profile.fullName info
             /\ relationText c = Profile.relation info
             /\ (headerImage c = Asset (Profile.image info)
                 \/ exists uri, imageCache a !! name p = Some uri
                                /\ headerImage c = Uri uri)))
  /\ ((SIMILARITY_THRESHOLD <? similarity d)%float = true ->
      canShowPerson (lastDetectionTime app) now1 (name d) = true ->
      inherited (name d) = false ->
      name d <> "Daniel" -> name d <> "Michelle" ->
      let r := announce now1 now2 app (mkDetectResult (Some (d :: rest))) in
      snd r = [mkEmission d now1 now2]
      /\ detectedPerson (fst r) = Some d
      /\ lastDetectionTime (fst r) !! name d = Some now2
      /\ card (fst r) = Returned None).
Proof.
  split.
  - intros a p Hp. split.
    + rewrite <- profileData_keys. split.
      * intros [c Hc]. apply (card_Some _ _ Hp) in Hc as (info & Hi & _). eauto.
      * intros [info Hi]. eexists. apply (card_Some _ _ Hp). now exists info.
    + intros c Hc. apply (card_Some _ _ Hp) in Hc as (info & Hi & ->).
      exists info. simpl. repeat split; try assumption.
      unfold header_source. destruct (imageCache a !! name p) as [uri|]; [|now left].
      destruct (decide (uri = "")); [now left | right; now exists uri].
  - intros Hs Hc Hin Hn1 Hn2 r. subst r. rewrite (announce_shows _ _ _ _ _ Hs Hc). simpl.
    destruct (canShowPerson_true _ _ _ Hc) as (Hp & _ & _).
    repeat split.
    + rewrite (js_set_insert _ _ _ Hp). apply lookup_insert_eq.
    + unfold card, show. simpl. rewrite js_get_profileData.
      destruct (profileData !! name d) as [info|] eqn:E; [|now rewrite Hin].
      assert (H : is_Some (profileData !! name d)) by eauto.
      apply profileData_keys in H. tauto.
Qed.

Lemma card_only_for_profiled_witness :
  let app := mkApp None ∅ ∅ in
  let d := mkDetectedPerson "Grace" 0.9 "Neighbour" in
  let r := announce 1700000000000 1700000000002 app (mkDetectResult (Some [d])) in
  snd r = [mkEmission d 1700000000000 1700000000002]
  /\ detectedPerson (fst r) = Some d
  /\ lastDetectionTime (fst r) !! name d = Some 1700000000002
  /\ card (fst r) = Returned None.
Proof.
  intros app d.
  apply (card_only_for_profiled app d [] 1700000000000 1700000000002);
    [reflexivity | reflexivity | reflexivity | discriminate | discriminate].
Defined.

(** C10 where the code departs from it.  A first person whose name is a
    property name inherited from Object.prototype ('constructor',
    'toString', ...) and has no entry in lastDetectionTime is never taken,
    whatever the similarity and the clock: the lookup of the name finds the
    inherited function, the difference with the clock is NaN, and the cycle
    neither shows the person nor records a time.  Were such a person held,
    the guard of the card would pass on the inherited value and the render
    would throw instead of drawing nothing. *)
Theorem inherited_name_not_accepted app d (rest : list DetectedPerson) (now1 now2 : Z) :
  inherited (name d) = true ->
  lastDetectionTime app !! name d = None ->
  canShowPerson (lastDetectionTime app) now1 (name d) = false
  /\ announce now1 now2 app (mkDetectResult (Some (d :: rest))) = (app, [])
  /\ card (mkApp (Some d) (lastDetectionTime app) (imageCache app))
     = Raised "Element type is invalid".
Proof.
  intros Hi Hl.
  assert (Hc : canShowPerson (lastDetectionTime app) now1 (name d) = false)
    by now apply canShowPerson_inherited.
  repeat split; [exact Hc | |].
  - apply announce_drops. rewrite Hc. apply andb_false_r.
  - unfold card. simpl. rewrite js_get_profileData.
    destruct (profileData !! name d) as [info|] eqn:E; [|now rewrite Hi].
    assert (H : is_Some (profileData !! name d)) by eauto.
    apply profileData_not_inherited in H as [H _]. congruence.
Qed.

Lemma inherited_name_not_accepted_witness :
  let app := mkApp None ∅ ∅ in
  let d := mkDetectedPerson "constructor" 0.9 "Neighbour" in
  announce 1700000000000 1700000000000 app (mkDetectResult (Some [d])) = (app, []).
Proof.
  intros app d.
  apply (inherited_name_not_accepted app d [] 1700000000000 1700000000000); reflexivity.
Defined.

End CardOfProfile.

(* --------------------------------------------------------------------- *)
(* The polling session                                                    *)
(* --------------------------------------------------------------------- *)

Section Polling.

Implicit Types (s : Session) (ev : Event) (evs : list Event) (w : World).

Lemma run_cons s ev evs : run s (ev :: evs) = run (step s ev) evs.
Proof. reflexivity. Qed.

(* What a cycle that returns has done: nothing, or shown the first person. *)
Lemma cycle_cases w (a a' : App) (es : list Emission) :
  captureAndSendFrame w a = Returned (a', es) ->
  (a' = a /\ es = [])
  \/ exists p0, (SIMILARITY_THRESHOLD <? similarity p0)%float = true
       /\ canShowPerson (lastDetectionTime a) (Date_now1 w) (name p0) = true
       /\ a' = show a p0 (Date_now2 w)
       /\ es = [mkEmission p0 (Date_now1 w) (Date_now2 w)].
Proof.
  unfold captureAndSendFrame. destruct (cameraRef w); simpl.
  2: { intros [= <- <-]. now left. }
  destruct (takePictureAsync w) as [[uri|]|]; simpl; try discriminate.
  2: { intros [= <- <-]. now left. }
  destruct (manipulateAsync w uri) as [resized|]; simpl; try discriminate.
  destruct (fetch w resized) as [response|]; simpl; try discriminate.
  destruct (json w response) as [result|]; simpl; try discriminate.
  unfold announce. destruct (persons result) as [[|p0 rest]|].
  1, 3: intros [= <- <-]; now left.
  destruct (SIMILARITY_THRESHOLD <? similarity p0)%float eqn:Hs; simpl.
  2: { intros [= <- <-]. now left. }
  destruct (canShowPerson _ _ _) eqn:Hc.
  2: { intros [= <- <-]. now left. }
  intros [= <- <-]. right. now exists p0.
Qed.

(** C6, as the code has it.  captureAndSendFrame has no try/catch: when
    the camera, the resizer, the request or the decoding of the response
    raises, the cycle's promise is rejected with that error, which the
    timer drops unhandled.  The cycle shows nothing and leaves the
    component as it was, the interval stays armed, and the next tick
    starts a cycle as before. *)
Theorem collaborator_error_skips_cycle s (i : nat) w (e : string) :
  inflight s !! i = Some w ->
  raises w e ->
  captureAndSendFrame w (app s) = Raised e
  /\ app (step s (Settle i)) = app s
  /\ emitted (step s (Settle i)) = emitted s
  /\ unhandled (step s (Settle i)) = unhandled s ++ [e]
  /\ inflight (step s (Settle i)) = delete i (inflight s)
  /\ timer (step s (Settle i)) = timer s
  /\ forall w', timer s = true -> cameraRef w' = true ->
       inflight (step (step s (Settle i)) (Tick w')) = delete i (inflight s) ++ [w'].
Proof.
  intros Hi Hr. pose proof (cycle_raises w (app s) e Hr) as E.
  split; [exact E|].
  unfold step at 1 2 3 4 5. rewrite Hi, E. simpl. repeat split.
  intros w' Ht Hc. unfold step. rewrite Hi, E. simpl. now rewrite Ht, Hc.
Qed.

Lemma collaborator_error_skips_cycle_witness :
  let s := step mount (Tick camera_glitch) in
  captureAndSendFrame camera_glitch (app s) = Raised "Camera is not ready"
  /\ app (step s (Settle 0)) = app s
  /\ emitted (step s (Settle 0)) = emitted s
  /\ unhandled (step s (Settle 0)) = unhandled s ++ ["Camera is not ready"]
  /\ inflight (step s (Settle 0)) = delete 0%nat (inflight s)
  /\ timer (step s (Settle 0)) = timer s
  /\ forall w', timer s = true -> cameraRef w' = true ->
       inflight (step (step s (Settle 0)) (Tick w')) = delete 0%nat (inflight s) ++ [w'].
Proof.
  intros s.
  apply (collaborator_error_skips_cycle s 0 camera_glitch "Camera is not ready").
  - reflexivity.
  - split; [reflexivity | left; reflexivity].
Defined.

(** C6 as stated fails: the camera raises, and the error is not caught:
    it is the outcome of the cycle and ends among the unhandled
    rejections of the session. *)
Lemma camera_error_escapes_cycle :
  raises camera_glitch "Camera is not ready"
  /\ captureAndSendFrame camera_glitch (app mount) = Raised "Camera is not ready"
  /\ unhandled (run mount [Tick camera_glitch; Settle 0]) = ["Camera is not ready"].
Proof.
  split; [split; [reflexivity | left; reflexivity] | split; reflexivity].
Qed.

(** C8, as the code has it.  setInterval starts captureAndSendFrame at
    every tick and nothing records that a cycle is under way: each tick
    with the interval armed and the camera there adds a cycle in flight,
    whatever is in flight already.  Ticks are neither skipped nor queued,
    and n ticks before any cycle settles leave n more cycles in flight. *)
Theorem ticks_start_overlapping_cycles s (ws : list World) :
  timer s = true ->
  Forall (fun w => cameraRef w = true) ws ->
  inflight (run s (map Tick ws)) = inflight s ++ ws
  /\ length (inflight (run s (map Tick ws))) = (length (inflight s) + length ws)%nat
  /\ emitted (run s (map Tick ws)) = emitted s
  /\ app (run s (map Tick ws)) = app s.
Proof.
  intros Ht Hws.
  assert (E : run s (map Tick ws)
              = mkSession (app s) (timer s) (inflight s ++ ws) (emitted s) (unhandled s)).
  { revert s Ht. induction Hws as [|w ws Hw _ IH]; intros s Ht.
    - simpl. rewrite app_nil_r. now destruct s.
    - simpl map. rewrite run_cons.
      assert (Es : step s (Tick w)
                   = mkSession (app s) (timer s) (inflight s ++ [w]) (emitted s) (unhandled s)).
      { unfold step. now rewrite Ht, Hw. }
      rewrite Es, IH by exact Ht. simpl. now rewrite <- app_assoc. }
  rewrite E. simpl. repeat split. apply length_app.
Qed.

Lemma ticks_start_overlapping_cycles_witness :
  let w := answering (mkDetectResult None) 1700000000000 1700000000000 in
  length (inflight (run mount (map Tick [w; w; w]))) = (length (inflight mount) + 3)%nat.
Proof.
  intros w. apply (ticks_start_overlapping_cycles mount [w; w; w]).
  - reflexivity.
  - repeat constructor.
Defined.

(** C8 as stated fails: two ticks with no cycle settled in between leave
    two cycles in flight. *)
Lemma two_cycles_in_flight :
  let w := answering (mkDetectResult None) 1700000000000 1700000002000 in
  length (inflight (run mount [Tick w; Tick w])) = 2%nat.
Proof. reflexivity. Qed.

(* Once the interval is cleared: it stays cleared, what was shown stays
   shown, and a step shows at most what it takes out of flight. *)
Lemma step_unmounted s ev :
  timer s = false ->
  timer (step s ev) = false
  /\ emitted s `prefix_of` emitted (step s ev)
  /\ (length (emitted (step s ev)) + length (inflight (step s ev))
      <= length (emitted s) + length (inflight s))%nat.
Proof.
  intros Ht. destruct ev as [w|i| |]; simpl.
  - rewrite Ht. simpl. repeat split; [assumption | reflexivity | lia].
  - destruct (inflight s !! i) as [w|] eqn:Hi; [|repeat split; [assumption|reflexivity|lia]].
    assert (Hd : length (delete i (inflight s)) = (length (inflight s) - 1)%nat)
      by (apply length_delete; eauto).
    assert (Hpos : (0 < length (inflight s))%nat)
      by (apply lookup_lt_Some in Hi; lia).
    destruct (captureAndSendFrame w (app s)) as [[a' es]|e] eqn:E; simpl.
    + apply cycle_at_most_one in E. repeat split; [assumption | now apply prefix_app_r |].
      rewrite length_app, Hd. lia.
    + repeat split; [assumption | reflexivity |]. rewrite Hd. lia.
  - repeat split; [assumption | reflexivity | lia].
  - repeat split; [reflexivity | lia].
Qed.

Lemma run_unmounted s evs :
  timer s = false ->
  timer (run s evs) = false
  /\ emitted s `prefix_of` emitted (run s evs)
  /\ (length (emitted (run s evs)) + length (inflight (run s evs))
      <= length (emitted s) + length (inflight s))%nat.
Proof.
  revert s. induction evs as [|ev evs IH]; intros s Ht.
  - simpl. repeat split; [assumption | reflexivity | lia].
  - rewrite run_cons.
    destruct (step_unmounted s ev Ht) as (Ht' & Hp & Hl).
    destruct (IH _ Ht') as (Ht'' & Hp' & Hl').
    repeat split; [assumption | now transitivity (emitted (step s ev)) | lia].
Qed.

(** C7, as the code has it.  The clean-up of the effect clears the
    interval and nothing more.  After it no tick starts a cycle, so nothing
    is shown if no cycle was in flight; a cycle that was in flight is not
    cancelled and, when it settles, goes through the similarity test and
    the cool-down and may call setDetectedPerson as any other: what is
    shown after the clean-up is at most one person per cycle that was in
    flight. *)
Theorem after_unmount s evs :
  timer s = false ->
  (forall w, step s (Tick w) = s)
  /\ timer (run s evs) = false
  /\ (exists later, emitted (run s evs) = emitted s ++ later
                   /\ (length later <= length (inflight s))%nat)
  /\ (inflight s = [] -> emitted (run s evs) = emitted s).
Proof.
  intros Ht. destruct (run_unmounted s evs Ht) as (Ht' & [later Hp] & Hl).
  assert (Hlen : (length later <= length (inflight s))%nat).
  { rewrite Hp, length_app in Hl. lia. }
  repeat split.
  - intros w. unfold step. now rewrite Ht.
  - exact Ht'.
  - now exists later.
  - intros Hnil. rewrite Hnil in Hlen. simpl in Hlen.
    destruct later; [now rewrite Hp, app_nil_r | simpl in Hlen; lia].
Qed.

Lemma after_unmount_witness :
  let w := answering (mkDetectResult None) 1700000000000 1700000000000 in
  emitted (run (step mount Unmount) [Tick w; Settle 0; Tick w; Settle 0])
  = emitted (step mount Unmount).
Proof.
  intros w.
  apply (after_unmount (step mount Unmount) [Tick w; Settle 0; Tick w; Settle 0]);
    reflexivity.
Defined.

(** C7 as stated fails: a cycle starts, the effect is cleaned up while the
    cycle waits for the response, the response names "Daniel" with
    similarity 0.75, and the cycle shows him and records the time although
    the interval is cleared. *)
Lemma in_flight_cycle_shows_after_unmount :
  let d := mkDetectedPerson "Daniel" 0.75 "Your Grandson" in
  let w := answering (mkDetectResult (Some [d])) 1700000000000 1700000000000 in
  let stopped := run mount [Tick w; Unmount] in
  timer stopped = false
  /\ emitted stopped = []
  /\ emitted (step stopped (Settle 0)) = [mkEmission d 1700000000000 1700000000000]
  /\ detectedPerson (app (step stopped (Settle 0))) = Some d
  /\ lastDetectionTime (app (step stopped (Settle 0))) !! "Daniel" = Some 1700000000000.
Proof. repeat split; reflexivity. Qed.

Lemma session_inv_start s :
  emitted s = [] -> Forall world_ok (inflight s) -> session_inv s.
Proof.
  intros He Hw. split; [exact Hw | |]; rewrite He.
  - intros e Hin. inversion Hin.
  - intros i j e1 e2 H. now rewrite lookup_nil in H.
Qed.

Lemma session_inv_show s w (i : nat) (p0 : DetectedPerson) :
  session_inv s -> world_ok w ->
  canShowPerson (lastDetectionTime (app s)) (Date_now1 w) (name p0) = true ->
  session_inv
    {| app := show (app s) p0 (Date_now2 w); timer := timer s;
       inflight := delete i (inflight s);
       emitted := emitted s ++ [mkEmission p0 (Date_now1 w) (Date_now2 w)];
       unhandled := unhandled s |}.
Proof.
  intros [Hf Hr Ha] Hw Hc. apply canShowPerson_true in Hc as (Hp & _ & Hc).
  assert (Hold : forall e, e ∈ emitted s -> name (shown e) = name p0 ->
                   COOLDOWN_MS < Date_now1 w - recorded_at e).
  { intros e Hin Hn. destruct (Hr e Hin) as (_ & t & Ht & Hle).
    rewrite Hn in Ht. rewrite Ht in Hc. simpl in Hc. lia. }
  unfold world_ok in Hw. split; simpl; rewrite ?(js_set_insert _ _ _ Hp).
  - now apply Forall_delete.
  - intros e Hin. apply elem_of_app in Hin as [Hin | Hin].
    + destruct (Hr e Hin) as (Hce & t & Ht & Hle). split; [exact Hce|].
      destruct (decide (name p0 = name (shown e))) as [Heq | Hne].
      * exists (Date_now2 w). rewrite Heq, lookup_insert_eq. split; [reflexivity|].
        specialize (Hold e Hin (eq_sym Heq)). unfold COOLDOWN_MS in Hold. lia.
      * exists t. now rewrite lookup_insert_ne.
    + apply list_elem_of_singleton in Hin. subst e. simpl. split; [exact Hw|].
      exists (Date_now2 w). rewrite lookup_insert_eq. split; [reflexivity | lia].
  - intros a b e1 e2 H1 H2 Hlt Hn.
    apply lookup_snoc_Some in H2 as [[Hb H2] | [Hb <-]].
    + rewrite lookup_app_l in H1 by lia. now apply (Ha a b e1 e2).
    + rewrite lookup_app_l in H1 by lia. simpl in *.
      apply Hold; [|exact Hn]. apply list_elem_of_lookup. now exists a.
Qed.

Lemma session_inv_step s ev : session_inv s -> event_ok ev -> session_inv (step s ev).
Proof.
  intros Hinv Hev. destruct ev as [w|i| |]; simpl.
  - destruct (timer s && cameraRef w); [|exact Hinv].
    destruct Hinv as [Hf Hr Ha]. split; simpl; try assumption.
    apply Forall_app. split; [exact Hf | now constructor].
  - destruct (inflight s !! i) as [w|] eqn:Hi; [|exact Hinv].
    assert (Hw : world_ok w).
    { destruct Hinv as [Hf _ _]. now apply (proj1 (Forall_lookup _ _) Hf i w). }
    destruct (captureAndSendFrame w (app s)) as [[a' es]|e] eqn:E.
    + apply cycle_cases in E as [[-> ->] | (p0 & _ & Hc & -> & ->)].
      * rewrite app_nil_r. destruct Hinv as [Hf Hr Ha].
        split; simpl; try assumption. now apply Forall_delete.
      * now apply session_inv_show.
    + destruct Hinv as [Hf Hr Ha]. split; simpl; try assumption. now apply Forall_delete.
  - destruct Hinv as [Hf Hr Ha]. split; simpl; assumption.
  - destruct Hinv as [Hf Hr Ha]. split; simpl; assumption.
Qed.

Lemma session_inv_run s evs :
  session_inv s -> Forall event_ok evs -> session_inv (run s evs).
Proof.
  intros Hinv Hevs. revert s Hinv.
  induction Hevs as [|ev evs Hev _ IH]; intros s Hinv; [exact Hinv|].
  rewrite run_cons. apply IH. now apply session_inv_step.
Qed.

(** C3, as the code has it.  In any run of the screen in which Date.now()
    does not go back between the two readings of a cycle (the one
    canShowPerson tests and the one that is stored), two calls of
    setDetectedPerson by cycles for the same name are more than 30000 ms
    apart: the later one was let through on a clock reading more than
    30000 ms past the reading stored for the earlier one, and each call
    lies between the two readings of its own cycle. *)
Theorem at_most_once_per_cooldown s evs (i j : nat) (e1 e2 : Emission) :
  emitted s = [] ->
  Forall world_ok (inflight s) ->
  Forall event_ok evs ->
  emitted (run s evs) !! i = Some e1 ->
  emitted (run s evs) !! j = Some e2 ->
  (i < j)%nat ->
  name (shown e1) = name (shown e2) ->
  checked_at e1 <= recorded_at e1
  /\ COOLDOWN_MS < checked_at e2 - recorded_at e1
  /\ checked_at e2 <= recorded_at e2.
Proof.
  intros He Hf Hevs H1 H2 Hlt Hn.
  destruct (session_inv_run s evs (session_inv_start s He Hf) Hevs) as [_ Hr Ha].
  repeat split.
  - apply Hr. apply list_elem_of_lookup. now exists i.
  - now apply (Ha i j e1 e2).
  - apply Hr. apply list_elem_of_lookup. now exists j.
Qed.

Lemma at_most_once_per_cooldown_witness :
  let d := mkDetectedPerson "Daniel" 0.75 "Your Grandson" in
  let body := mkDetectResult (Some [d]) in
  let e1 := mkEmission d 1700000000000 1700000000001 in
  let e2 := mkEmission d 1700000031000 1700000031000 in
  checked_at e1 <= recorded_at e1
  /\ COOLDOWN_MS < checked_at e2 - recorded_at e1
  /\ checked_at e2 <= recorded_at e2.
Proof.
  intros d body e1 e2.
  apply (at_most_once_per_cooldown mount
           [Tick (answering body 1700000000000 1700000000001); Settle 0;
            Tick (answering body 1700000009000 1700000009000); Settle 0;
            Tick (answering body 1700000031000 1700000031000); Settle 0]
           0 1 e1 e2).
  - reflexivity.
  - constructor.
  - repeat (apply List.Forall_cons;
              [first [exact I | unfold event_ok, world_ok; simpl; lia] |]).
    apply List.Forall_nil.
  - reflexivity.
  - reflexivity.
  - lia.
  - reflexivity.
Defined.

(** C3 as stated fails: the cool-down is counted from the reading of
    Date.now() that is stored, which is taken after the reading that is
    tested.  With the wall clock set back by 40 s between the two readings
    of each of two cycles, "Daniel" is shown twice, and both the tested
    readings and the stored readings of the two showings are 1 ms apart. *)
Lemma clock_set_back_shows_twice :
  let d := mkDetectedPerson "Daniel" 0.75 "Your Grandson" in
  let body := mkDetectResult (Some [d]) in
  let e1 := mkEmission d 1700000040000 1700000000000 in
  let e2 := mkEmission d 1700000040001 1700000000001 in
  emitted (run mount [Tick (answering body 1700000040000 1700000000000); Settle 0;
                      Tick (answering body 1700000040001 1700000000001); Settle 0])
  = [e1; e2]
  /\ name (shown e1) = name (shown e2)
  /\ checked_at e2 - checked_at e1 = 1
  /\ recorded_at e2 - recorded_at e1 = 1.
Proof. repeat split; reflexivity. Qed.

End Polling.

(* --------------------------------------------------------------------- *)
(* Dragging the sheet                                                     *)
(* --------------------------------------------------------------------- *)

Section Drag.

Implicit Types (x y : float) (a b : spec_float).

Lemma SFcompare_antisym a b : SFcompare b a = CompOpp <$> SFcompare a b.
Proof.
  destruct a as [sa|sa| |sa ma ea], b as [sb|sb| |sb mb eb]; simpl;
    try destruct sa; try destruct sb; simpl; try reflexivity.
  all: rewrite (Z.compare_antisym ea eb); destruct (ea ?= eb)%Z; simpl; try reflexivity.
  all: pose proof (Pos.compare_cont_antisym ma mb Eq) as A; simpl in A; rewrite <- A;
    destruct (Pos.compare_cont Eq ma mb); reflexivity.
Qed.

Lemma SFcompare_refl a : a <> S754_nan -> SFcompare a a = Some Eq.
Proof.
  destruct a as [sa|sa| |sa ma ea]; simpl; try congruence; intros _.
  - now destruct sa.
  - destruct sa; rewrite Z.compare_refl, Pos.compare_cont_refl; reflexivity.
Qed.

Lemma SFcompare_total a b :
  a <> S754_nan -> b <> S754_nan -> exists c, SFcompare a b = Some c.
Proof.
  destruct a as [sa|sa| |sa ma ea], b as [sb|sb| |sb mb eb]; simpl;
    try congruence; intros _ _; eauto.
Qed.

Lemma is_nan_false x : is_nan x = false <-> Prim2SF x <> S754_nan.
Proof.
  unfold is_nan. rewrite FloatAxioms.eqb_spec. unfold SFeqb. split.
  - intros H E. rewrite E in H. discriminate.
  - intros H. now rewrite (SFcompare_refl _ H).
Qed.

(* NaN apart, when y is not less than x, x is at most y. *)
Lemma float_leb_of_not_ltb x y :
  is_nan x = false -> is_nan y = false -> (y <? x)%float = false -> (x <=? y)%float = true.
Proof.
  intros Hx Hy. apply is_nan_false in Hx, Hy.
  rewrite FloatAxioms.ltb_spec, FloatAxioms.leb_spec. unfold SFltb, SFleb.
  rewrite (SFcompare_antisym (Prim2SF x) (Prim2SF y)).
  destruct (SFcompare_total _ _ Hx Hy) as [c ->]. now destruct c.
Qed.

Lemma Math_min_1 x :
  is_nan x = false ->
  is_nan (Math_min 1 x) = false /\ (Math_min 1 x <=? 1)%float = true.
Proof.
  intros Hx. unfold Math_min.
  change (is_nan 1) with false. rewrite Hx. simpl.
  destruct (1 <? x)%float eqn:H1; [split; reflexivity|].
  assert (Hle : (x <=? 1)%float = true) by now apply float_leb_of_not_ltb.
  change (is_neg_zero 1) with false.
  destruct (x <? 1)%float; now split.
Qed.

Lemma Math_max_0 y :
  is_nan y = false -> (y <=? 1)%float = true ->
  (0 <=? Math_max 0 y)%float = true /\ (Math_max 0 y <=? 1)%float = true.
Proof.
  intros Hy Hle. unfold Math_max.
  change (is_nan 0) with false. rewrite Hy. simpl.
  destruct (0 <? y)%float eqn:H0.
  - split; [|exact Hle]. apply float_leb_of_not_ltb; try reflexivity; try assumption.
    now apply float_ltb_asym.
  - change (is_neg_zero 0) with false.
    destruct (y <? 0)%float; split; reflexivity.
Qed.

(** X1.  Dragging keeps the sheet between closed and open: whatever the
    window height, the start value and the translation of the gesture,
    onActive sets slideUp to a number from 0 to 1, unless
    startY + translationY / SHEET_HEIGHT is NaN (a window of height 0 and a
    translation of 0, say), in which case slideUp becomes NaN.  The detected
    person and isCardVisible are not touched. *)
Theorem drag_keeps_slideUp_in_range (height startY translationY : float) (sh : Sheet) :
  let newValue := (startY + translationY / SHEET_HEIGHT height)%float in
  let sh' := onActive height startY translationY sh in
  sheet_app sh' = sheet_app sh
  /\ isCardVisible sh' = isCardVisible sh
  /\ (if is_nan newValue
      then is_nan (slideUp sh') = true
      else (0 <=? slideUp sh')%float = true /\ (slideUp sh' <=? 1)%float = true).
Proof.
  intros newValue sh'. repeat split.
  unfold sh', onActive. simpl. fold newValue.
  destruct (is_nan newValue) eqn:Hn.
  - unfold Math_min. rewrite Hn, orb_true_r. reflexivity.
  - destruct (Math_min_1 newValue Hn) as [Hy Hle]. now apply Math_max_0.
Qed.

End Drag.

(* --------------------------------------------------------------------- *)
(* The sheet along the life of the screen                                 *)
(* --------------------------------------------------------------------- *)

Section SheetLife.

Implicit Types (sh : Sheet).

(** X3.  Swiping the card away does not end the cool-down.  When the drag
    ends more than SWIPE_THRESHOLD down, the detected person and
    isCardVisible are reset but lastDetectionTime is kept; a cycle that then
    detects the same name while the clock reads at most 30000 ms past the
    stored time shows nothing and changes nothing: no person is held, no
    card is drawn and the stored time is not refreshed.  The cycle changes
    nothing either when it settles with only one or neither of the two
    resets done, as it looks at lastDetectionTime alone. *)
Theorem swipe_keeps_cooldown sh (translationY : float) (w : World)
    (d : DetectedPerson) (rest : list DetectedPerson) (t : Z) :
  (SWIPE_THRESHOLD <? translationY)%float = true ->
  lastDetectionTime (sheet_app sh) !! name d = Some t ->
  answers w (mkDetectResult (Some (d :: rest))) ->
  Date_now1 w - t <= COOLDOWN_MS ->
  let swiped := onEnd translationY sh in
  detectedPerson (sheet_app swiped) = None
  /\ isCardVisible swiped = false
  /\ lastDetectionTime (sheet_app swiped) = lastDetectionTime (sheet_app sh)
  /\ card (sheet_app swiped) = Returned None
  /\ captureAndSendFrame w (sheet_app swiped) = Returned (sheet_app swiped, [])
  /\ forall a, lastDetectionTime a = lastDetectionTime (sheet_app sh) ->
       captureAndSendFrame w a = Returned (a, []).
Proof.
  intros Hsw Ht Hw Hcd swiped.
  assert (Es : swiped = {| sheet_app := {| detectedPerson := None;
                                           lastDetectionTime := lastDetectionTime (sheet_app sh);
                                           imageCache := imageCache (sheet_app sh) |};
                           isCardVisible := false; slideUp := 0 |}).
  { unfold swiped, onEnd. rewrite Hsw. reflexivity. }
  assert (Hall : forall a, lastDetectionTime a = lastDetectionTime (sheet_app sh) ->
                   captureAndSendFrame w a = Returned (a, [])).
  { intros a Ha. rewrite (cycle_answers _ _ _ Hw). f_equal.
    apply announce_drops. rewrite Ha, (canShowPerson_within _ _ _ _ Ht Hcd).
    apply andb_false_r. }
  rewrite Es. simpl. repeat split; [|exact Hall]. now apply Hall.
Qed.

Lemma swipe_keeps_cooldown_witness :
  let d := mkDetectedPerson "Daniel" 0.75 "Your Grandson" in
  let sh := mkSheet (show (app mount) d 1700000000000) true 1 in
  let w := answering (mkDetectResult (Some [d])) 1700000004000 1700000004000 in
  captureAndSendFrame w (sheet_app (onEnd 120 sh)) = Returned (sheet_app (onEnd 120 sh), []).
Proof.
  intros d sh w.
  refine (proj1 (proj2 (proj2 (proj2 (proj2
            (swipe_keeps_cooldown sh 120 w d [] 1700000000000 _ _ _ _)))))).
  - reflexivity.
  - reflexivity.
  - split; [reflexivity|]. eexists _, _, _. repeat split; reflexivity.
  - vm_compute. discriminate.
Defined.

End SheetLife.

(* --------------------------------------------------------------------- *)
(* Caching the images of the camera screen                                *)
(* --------------------------------------------------------------------- *)

Section CameraImageCache.

Implicit Types (fs : FileSystem) (app : App) (n path : string).

(* The table the card reads and the entries the loop walks are the same. *)
Lemma profileEntries_profileData : list_to_map profileEntries = profileData.
Proof. reflexivity. Qed.

Lemma cacheImage_path fs n info path :
  cacheImage fs n info = Returned path ->
  path = template (cacheDirectory fs) +:+ n +:+ ".jpg".
Proof.
  unfold cacheImage.
  destruct (resolveAssetSource fs (Profile.image info)) as [asset|]; simpl; [|discriminate].
  destruct (downloadAsync fs asset _) as [[]|]; simpl; [|discriminate].
  now intros [= <-].
Qed.

Lemma cacheImage_steps fs n info path :
  cacheImage fs n info = Returned path <->
  path = template (cacheDirectory fs) +:+ n +:+ ".jpg"
  /\ exists asset, resolveAssetSource fs (Profile.image info) = Returned asset
                   /\ downloadAsync fs asset path = Returned tt.
Proof.
  split.
  - intros H. pose proof (cacheImage_path _ _ _ _ H) as ->. split; [reflexivity|].
    revert H. unfold cacheImage.
    destruct (resolveAssetSource fs (Profile.image info)) as [asset|]; simpl; [|discriminate].
    destruct (downloadAsync fs asset _) as [[]|] eqn:D; simpl; [|discriminate].
    intros _. now exists asset.
  - intros [-> (asset & R & D)]. unfold cacheImage. rewrite R. simpl. rewrite D. reflexivity.
Qed.

Lemma cacheImages_lookup fs app n :
  imageCache (fst (cacheImages fs app)) !! n
  = match profileData !! n with
    | Some info =>
        match cacheImage fs n info with
        | Returned path => Some path
        | Raised _ => None
        end
    | None => None
    end.
Proof.
  unfold cacheImages, profileEntries, profileData. simpl.
  destruct (cacheImage fs "Daniel" _) as [pd|ed] eqn:Ed;
    destruct (cacheImage fs "Michelle" _) as [pm|em] eqn:Em; simpl;
    rewrite !lookup_insert; repeat case_decide; subst;
    rewrite ?lookup_insert_eq, ?lookup_empty, ?Ed, ?Em;
    try reflexivity; try congruence.
  all: rewrite lookup_insert_ne by congruence;
    rewrite ?lookup_insert_eq, ?lookup_empty; reflexivity.
Qed.

(** X4.  Caching the card images never fails as a whole and treats each
    profile on its own: after cacheImages the cache holds a path for a name
    exactly when the name is a key of profileData and both the lookup of
    its asset and the download to cacheDirectory + name + ".jpg" went
    through; that path is the stored value.  An error on one profile is
    logged and leaves the other profile's entry as it would be without it;
    the detected person and the last detection times are untouched. *)
Theorem cacheImages_per_profile fs app n path :
  (imageCache (fst (cacheImages fs app)) !! n = Some path <->
     path = template (cacheDirectory fs) +:+ n +:+ ".jpg"
     /\ exists info asset,
          profileData !! n = Some info
          /\ resolveAssetSource fs (Profile.image info) = Returned asset
          /\ downloadAsync fs asset path = Returned tt)
  /\ detectedPerson (fst (cacheImages fs app)) = detectedPerson app
  /\ lastDetectionTime (fst (cacheImages fs app)) = lastDetectionTime app.
Proof.
  split; [|split; reflexivity].
  rewrite cacheImages_lookup. split.
  - destruct (profileData !! n) as [info|] eqn:Ei; [|discriminate].
    destruct (cacheImage fs n info) as [p|e] eqn:E; [|discriminate].
    intros [= ->]. apply cacheImage_steps in E as [-> (asset & R & D)].
    split; [reflexivity|]. now exists info, asset.
  - intros [Hp (info & asset & Ei & R & D)]. rewrite Ei.
    assert (E : cacheImage fs n info = Returned path)
      by (apply cacheImage_steps; split; [exact Hp | now exists asset]).
    now rewrite E.
Qed.

(** X5.  The card takes its header image from the cache when the image of
    the detected person was cached, under the path cacheDirectory + name +
    ".jpg", and from the bundled asset of the profile when caching that
    image failed. *)
Theorem card_header_after_caching fs app (d : DetectedPerson) (c : Card) :
  detectedPerson app = Some d ->
  card (fst (cacheImages fs app)) = Returned (Some c) ->
  exists info, profileData !! name d = Some info
    /\ match cacheImage fs (name d) info with
       | Returned path =>
           path = template (cacheDirectory fs) +:+ name d +:+ ".jpg"
           /\ headerImage c = Uri path
       | Raised _ => headerImage c = Asset (Profile.image info)
       end.
Proof.
  intros Hd Hc.
  assert (Hd' : detectedPerson (fst (cacheImages fs app)) = Some d) by exact Hd.
  apply (card_Some _ _ Hd') in Hc as (info & Hi & ->). exists info. split; [exact Hi|].
  cbn [headerImage]. unfold header_source. rewrite cacheImages_lookup, Hi.
  destruct (cacheImage fs (name d) info) as [path|e] eqn:E; [|reflexivity].
  pose proof (cacheImage_path _ _ _ _ E) as Hp. split; [exact Hp|].
  destruct (decide (path = "")) as [Hempty|]; [|reflexivity].
  exfalso. rewrite Hp in Hempty.
  assert (Hk : is_Some (profileData !! name d)) by eauto.
  apply profileData_keys in Hk as [Hn | Hn]; rewrite Hn in Hempty;
    destruct (template (cacheDirectory fs)); discriminate.
Qed.

Lemma card_header_after_caching_witness :
  let app := mkApp (Some (mkDetectedPerson "Michelle" 0.8 "Your Granddaughter")) ∅ ∅ in
  exists c info,
    card (fst (cacheImages daniel_offline app)) = Returned (Some c)
    /\ profileData !! "Michelle" = Some info
    /\ headerImage c = Uri "file:///cache/Michelle.jpg".
Proof.
  intros app.
  destruct (card (fst (cacheImages daniel_offline app))) as [[c|]|e] eqn:Hc;
    [|vm_compute in Hc; discriminate|vm_compute in Hc; discriminate].
  destruct (card_header_after_caching daniel_offline app
              (mkDetectedPerson "Michelle" 0.8 "Your Granddaughter") c eq_refl Hc)
    as (info & Hi & H).
  exists c, info. split; [reflexivity|]. split; [exact Hi|].
  assert (Hinfo : info = Profile.mkProfileInfo "Michelle Feng" "Your Granddaughter"
                           "../assets/images/michelle-half.png" Profile.MichelleIcons).
  { vm_compute in Hi. congruence. }
  subst info. vm_compute in H. destruct H as [_ H]. exact H.
Defined.

End CameraImageCache.

(* --------------------------------------------------------------------- *)
(* What a run of the screen leaves behind                                 *)
(* --------------------------------------------------------------------- *)

Section Trace.

Implicit Types (s : Session) (ev : Event) (evs : list Event) (n : string)
  (es : list Emission).

Lemma replay_app es1 es2 (last : gmap string Z) :
  replay (es1 ++ es2) last = replay es2 (replay es1 last).
Proof. unfold replay. apply fold_left_app. Qed.

Lemma replay_is_Some es (last : gmap string Z) n :
  is_Some (last !! n) -> is_Some (replay es last !! n).
Proof.
  revert last. induction es as [|e es IH]; intros last H; [exact H|].
  simpl. apply IH. rewrite lookup_insert. case_decide; eauto.
Qed.

Lemma replay_other es (last : gmap string Z) n :
  (forall e, e ∈ es -> name (shown e) <> n) -> replay es last !! n = last !! n.
Proof.
  revert last. induction es as [|e es IH]; intros last H; [reflexivity|].
  simpl. rewrite IH by (intros e' He'; apply H; now right).
  apply lookup_insert_ne. apply H. now left.
Qed.

(* What one event adds. *)
Lemma step_trace s ev :
  exists new,
    emitted (step s ev) = emitted s ++ new
    /\ lastDetectionTime (app (step s ev)) = replay new (lastDetectionTime (app s))
    /\ Forall (fun e => (SIMILARITY_THRESHOLD <? similarity (shown e))%float = true) new
    /\ (detectedPerson (app (step s ev)) = None
        \/ detectedPerson (app (step s ev))
           = match last new with
             | Some e => Some (shown e)
             | None => detectedPerson (app s)
             end).
Proof.
  destruct ev as [w|i| |]; simpl.
  - exists []. rewrite app_nil_r. destruct (timer s && cameraRef w); simpl; auto.
  - destruct (inflight s !! i) as [w|]; [|exists []; rewrite app_nil_r; simpl; auto].
    destruct (captureAndSendFrame w (app s)) as [[a' es]|e] eqn:E; simpl.
    + apply cycle_cases in E as [[-> ->] | (p0 & Hs & Hc & -> & ->)].
      * exists []. rewrite app_nil_r. simpl. auto.
      * destruct (canShowPerson_true _ _ _ Hc) as (Hp & _ & _).
        eexists. split; [reflexivity|]. simpl. split; [now apply js_set_insert|].
        split; [repeat constructor; exact Hs | now right].
    + exists []. rewrite app_nil_r. simpl. auto.
  - exists []. rewrite app_nil_r. simpl. auto.
  - exists []. rewrite app_nil_r. simpl. auto.
Qed.

Lemma run_trace s evs :
  exists new,
    emitted (run s evs) = emitted s ++ new
    /\ lastDetectionTime (app (run s evs)) = replay new (lastDetectionTime (app s))
    /\ Forall (fun e => (SIMILARITY_THRESHOLD <? similarity (shown e))%float = true) new
    /\ (detectedPerson (app (run s evs)) = None
        \/ detectedPerson (app (run s evs))
           = match last new with
             | Some e => Some (shown e)
             | None => detectedPerson (app s)
             end).
Proof.
  revert s. induction evs as [|ev evs IH]; intros s.
  - exists []. rewrite app_nil_r. simpl. auto.
  - rewrite run_cons.
    destruct (step_trace s ev) as (new0 & He0 & Ht0 & Hf0 & Hd0).
    destruct (IH (step s ev)) as (new1 & He1 & Ht1 & Hf1 & Hd1).
    exists (new0 ++ new1). repeat split.
    + now rewrite He1, He0, app_assoc.
    + now rewrite Ht1, Ht0, replay_app.
    + now apply Forall_app.
    + destruct Hd1 as [Hd1 | Hd1]; [now left|].
      rewrite last_app. destruct (last new1) as [e|]; [now right|].
      rewrite Hd1. exact Hd0.
Qed.

(** X6.  The table of last detection times is written by shown persons and
    by nothing else: after any run of the screen the table is the table at
    the start with, for each person shown since, in order, the recorded
    time stored under the person's name.  So an entry of a name that was
    not shown during the run is as it was: refused detections, errors,
    swipes and the clean-up do not touch it. *)
Theorem table_replays_shown s evs :
  exists new,
    emitted (run s evs) = emitted s ++ new
    /\ lastDetectionTime (app (run s evs)) = replay new (lastDetectionTime (app s))
    /\ forall n, (forall e, e ∈ new -> name (shown e) <> n) ->
         lastDetectionTime (app (run s evs)) !! n = lastDetectionTime (app s) !! n.
Proof.
  destruct (run_trace s evs) as (new & He & Ht & _ & _).
  exists new. repeat split; try assumption.
  intros n Hn. rewrite Ht. now apply replay_other.
Qed.

(** X7.  No entry of the table of last detection times is ever removed:
    a name that has an entry keeps one through every run of the screen
    (nothing resets or clears a cool-down, the table only grows). *)
Theorem entries_never_removed s evs n :
  is_Some (lastDetectionTime (app s) !! n) ->
  is_Some (lastDetectionTime (app (run s evs)) !! n).
Proof.
  intros H. destruct (run_trace s evs) as (new & _ & Ht & _ & _).
  rewrite Ht. now apply replay_is_Some.
Qed.

Lemma entries_never_removed_witness :
  let d := mkDetectedPerson "Daniel" 0.75 "Your Grandson" in
  let w := answering (mkDetectResult (Some [d])) 1700000000000 1700000000000 in
  let s := run mount [Tick w; Settle 0] in
  is_Some (lastDetectionTime (app (run s [SwipeDown; Unmount])) !! "Daniel").
Proof.
  intros d w s. apply (entries_never_removed s [SwipeDown; Unmount] "Daniel").
  vm_compute. eauto.
Defined.

(** X8.  Every person a run of the screen shows had a similarity greater
    than 0.6: whatever the events, each call of setDetectedPerson made by a
    cycle during the run is for a person that passed the similarity test. *)
Theorem shown_passed_similarity s evs :
  exists new,
    emitted (run s evs) = emitted s ++ new
    /\ Forall (fun e => (0.6 <? similarity (shown e))%float = true) new.
Proof.
  destruct (run_trace s evs) as (new & He & _ & Hf & _). now exists new.
Qed.

(** X9.  The person the screen holds is the latest one shown: after any
    run, detectedPerson is either null (the card was swiped away, or nothing
    was ever shown), or the person of the last call of setDetectedPerson
    made during the run, or, when the run showed nobody, the person held at
    the start.  A newer showing replaces the card of an older one. *)
Theorem held_person_is_latest_shown s evs :
  exists new,
    emitted (run s evs) = emitted s ++ new
    /\ (detectedPerson (app (run s evs)) = None
        \/ detectedPerson (app (run s evs))
           = match last new with
             | Some e => Some (shown e)
             | None => detectedPerson (app s)
             end).
Proof.
  destruct (run_trace s evs) as (new & He & _ & _ & Hd). now exists new.
Qed.

(** X10.  The cool-down is per name.  A cycle that shows one person leaves
    the cool-down of every other name as it was, so a second person that
    passes the similarity test and whose own cool-down has expired is shown
    by the next cycle, however short the time since the first showing. *)
Theorem cooldown_is_per_name (a : App) (d1 d2 : DetectedPerson)
    (rest1 rest2 : list DetectedPerson) (t1 t1' t2 t2' : Z) :
  name d1 <> name d2 ->
  (SIMILARITY_THRESHOLD <? similarity d1)%float = true ->
  (SIMILARITY_THRESHOLD <? similarity d2)%float = true ->
  canShowPerson (lastDetectionTime a) t1 (name d1) = true ->
  canShowPerson (lastDetectionTime a) t2 (name d2) = true ->
  let r1 := announce t1 t1' a (mkDetectResult (Some (d1 :: rest1))) in
  let r2 := announce t2 t2' (fst r1) (mkDetectResult (Some (d2 :: rest2))) in
  (forall n now, n <> name d1 ->
     canShowPerson (lastDetectionTime (fst r1)) now n
     = canShowPerson (lastDetectionTime a) now n)
  /\ snd r1 = [mkEmission d1 t1 t1']
  /\ snd r2 = [mkEmission d2 t2 t2']
  /\ detectedPerson (fst r2) = Some d2
  /\ lastDetectionTime (fst r2) !! name d1 = Some t1'
  /\ lastDetectionTime (fst r2) !! name d2 = Some t2'.
Proof.
  intros Hne Hs1 Hs2 Hc1 Hc2 r1 r2.
  destruct (canShowPerson_true _ _ _ Hc1) as (Hp1 & _ & _).
  destruct (canShowPerson_true _ _ _ Hc2) as (Hp2 & _ & _).
  assert (E1 : r1 = (show a d1 t1', [mkEmission d1 t1 t1'])) by now apply announce_shows.
  assert (Hother : forall n now, n <> name d1 ->
            canShowPerson (lastDetectionTime (show a d1 t1')) now n
            = canShowPerson (lastDetectionTime a) now n).
  { intros n now Hn. rewrite (show_table _ _ _ Hp1). unfold canShowPerson, js_get.
    now rewrite lookup_insert_ne by congruence. }
  assert (E2 : r2 = (show (show a d1 t1') d2 t2', [mkEmission d2 t2 t2'])).
  { unfold r2. rewrite E1. simpl. apply announce_shows; [exact Hs2|].
    rewrite Hother by congruence. exact Hc2. }
  rewrite E2, E1. simpl. rewrite !js_set_insert by assumption. repeat split.
  - intros n now Hn. rewrite <- (Hother n now Hn). now rewrite (show_table _ _ _ Hp1).
  - rewrite lookup_insert_ne by congruence. apply lookup_insert_eq.
  - apply lookup_insert_eq.
Qed.

Lemma cooldown_is_per_name_witness :
  let a := mkApp None ∅ ∅ in
  let d1 := mkDetectedPerson "Daniel" 0.75 "Your Grandson" in
  let d2 := mkDetectedPerson "Michelle" 0.8 "Your Granddaughter" in
  let r1 := announce 1700000000000 1700000000000 a (mkDetectResult (Some [d1])) in
  let r2 := announce 1700000002000 1700000002000 (fst r1) (mkDetectResult (Some [d2])) in
  snd r2 = [mkEmission d2 1700000002000 1700000002000].
Proof.
  intros a d1 d2.
  apply (cooldown_is_per_name a d1 d2 [] [] 1700000000000 1700000000000
           1700000002000 1700000002000);
    [discriminate | reflexivity | reflexivity | reflexivity | reflexivity].
Defined.

End Trace.

(* --------------------------------------------------------------------- *)
(* The profile page                                                       *)
(* --------------------------------------------------------------------- *)

Section ProfilePageFacts.

Implicit Types (fs : FileSystem) (n : string) (st : ProfilePage.State).

Lemma table_keys n :
  is_Some (ProfilePage.table !! n) <-> n = "Daniel" \/ n = "Michelle".
Proof.
  unfold ProfilePage.table. rewrite !lookup_insert.
  repeat case_decide; subst; rewrite ?lookup_empty; split;
    intros K; eauto; try (destruct K as [? [=]]); destruct K; congruence.
Qed.

Lemma profileInfo_cases n :
  ProfilePage.profileInfo n
  = match ProfilePage.table !! n with
    | Some info => Own info
    | None => if inherited n then Inherited else Missing
    end.
Proof.
  unfold ProfilePage.profileInfo, js_get.
  destruct (decide (n = "__proto__")) as [->|]; reflexivity.
Qed.

(** X11.  The profile page and the card agree, on the names that are no
    property names inherited from Object.prototype.  The page shows a
    profile exactly for the keys 'Daniel' and 'Michelle' of profileData,
    the names for which a card can be drawn; for any other name it shows
    "Profile not found" when the name is not an inherited one, and throws
    when it is (the table is indexed with the name, the inherited value is
    truthy, and its audioAlbums are undefined).  The name that "View full
    profile" of a card passes on leads to a profile with the full name, the
    relation and the icons of the card. *)
Theorem card_link_finds_profile (a : App) (c : Card) st :
  card a = Returned (Some c) ->
  (forall n st', (exists page, ProfilePage.render n st' = Returned page
                               /\ page <> ProfilePage.NotFound)
                 <-> is_Some (profileData !! n))
  /\ (forall n st', ProfilePage.render n st' = Returned ProfilePage.NotFound
                    <-> profileData !! n = None /\ inherited n = false)
  /\ (forall n st', ProfilePage.render n st' = Raised "TypeError"
                    <-> profileData !! n = None /\ inherited n = true)
  /\ (navigateToProfile (profileLink c) = "/profile?name=Daniel"
      \/ navigateToProfile (profileLink c) = "/profile?name=Michelle")
  /\ exists info,
       ProfilePage.profileInfo (profileLink c) = Own info
       /\ ProfilePage.fullName info = nameText c
       /\ ProfilePage.relation info = relationText c
       /\ ProfilePage.IconComponent info = icons c
       /\ exists header photos,
            ProfilePage.render (profileLink c) st
            = Returned (ProfilePage.Page header (nameText c) (relationText c) (icons c)
                          (ProfilePage.nicknames info) (ProfilePage.audioAlbums info) photos).
Proof.
  intros Hc.
  assert (Hsame : forall n, ProfilePage.table !! n = None <-> profileData !! n = None).
  { intros n. rewrite !eq_None_not_Some, table_keys, profileData_keys. tauto. }
  split; [|split; [|split]].
  { intros n st'. unfold ProfilePage.render. rewrite profileInfo_cases.
    destruct (ProfilePage.table !! n) as [info|] eqn:E.
    - split; [intros _ | intros _; eexists; split; [reflexivity | discriminate]].
      rewrite profileData_keys, <- table_keys. eauto.
    - apply Hsame in E. rewrite E.
      split; [|intros [? [=]]].
      intros (page & H & Hp). destruct (inherited n); [discriminate|]. congruence. }
  { intros n st'. unfold ProfilePage.render. rewrite profileInfo_cases.
    destruct (ProfilePage.table !! n) as [info|] eqn:E.
    - split; [discriminate|]. intros [H _]. apply Hsame in H. congruence.
    - apply Hsame in E. destruct (inherited n); split;
        try discriminate; try (intros [_ [=]]); auto. }
  { intros n st'. unfold ProfilePage.render. rewrite profileInfo_cases.
    destruct (ProfilePage.table !! n) as [info|] eqn:E.
    - split; [discriminate|]. intros [H _]. apply Hsame in H. congruence.
    - apply Hsame in E. destruct (inherited n); split;
        try discriminate; try (intros [_ [=]]); auto. }
  unfold card in Hc. destruct (detectedPerson a) as [d|]; [|discriminate].
  rewrite js_get_profileData in Hc.
  destruct (profileData !! name d) as [info0|] eqn:Ei;
    [|destruct (inherited (name d)); discriminate].
  injection Hc as <-. simpl.
  assert (Hk : is_Some (profileData !! name d)) by eauto.
  apply profileData_keys in Hk as [Hn | Hn]; rewrite Hn in *;
    vm_compute in Ei; injection Ei as <-.
  - split; [now left|]. eexists. split; [reflexivity|]. repeat split. eauto.
  - split; [now right|]. eexists. split; [reflexivity|]. repeat split. eauto.
Qed.

Lemma card_link_finds_profile_witness :
  let a := mkApp (Some (mkDetectedPerson "Daniel" 0.75 "Your Grandson")) ∅ ∅ in
  exists c, card a = Returned (Some c)
    /\ exists info, ProfilePage.profileInfo (profileLink c) = Own info
                    /\ ProfilePage.fullName info = nameText c.
Proof.
  intros a. destruct (card a) as [[c|]|e] eqn:Hc;
    [|vm_compute in Hc; discriminate|vm_compute in Hc; discriminate].
  exists c. split; [reflexivity|].
  destruct (card_link_finds_profile a c ProfilePage.initial Hc)
    as (_ & _ & _ & _ & info & Hi & Hf & _).
  now exists info.
Defined.

Lemma append_nonempty (a b : string) : b <> "" -> a +:+ b <> "".
Proof. intros Hb. destruct a; simpl; [exact Hb | discriminate]. Qed.

Lemma album_key_inj (i j : nat) : "album_" +:+ pretty i = "album_" +:+ pretty j -> i = j.
Proof. intros H. apply (inj _) in H. now apply (inj pretty) in H. Qed.

(* What the loop over the photos has done when it returns. *)
Lemma cacheAlbums_Returned fs n photos (i : nat) (ac m : gmap string string) :
  ProfilePage.cacheAlbums fs n photos i ac = Returned m ->
  (forall k photo, photos !! k = Some photo ->
     fetched fs photo (albumCacheKey fs n (i + k))
     /\ m !! ("album_" +:+ pretty (i + k)%nat) = Some (albumCacheKey fs n (i + k)))
  /\ (forall key, (forall k, (k < length photos)%nat -> key <> "album_" +:+ pretty (i + k)%nat) ->
        m !! key = ac !! key).
Proof.
  revert i ac. induction photos as [|photo rest IH]; intros i ac; simpl.
  - intros [= <-]. split; [intros k p Hk; now rewrite lookup_nil in Hk | reflexivity].
  - destruct (resolveAssetSource fs photo) as [uri|] eqn:R; simpl; [|discriminate].
    destruct (downloadAsync fs uri _) as [[]|] eqn:D; simpl; [|discriminate].
    intros H. apply IH in H as [Hin Hout].
    assert (Hi : m !! ("album_" +:+ pretty i) = Some (albumCacheKey fs n i)).
    { rewrite Hout.
      - apply lookup_insert_eq.
      - intros k _ E. apply album_key_inj in E. lia. }
    split.
    + intros [|k] p Hk; simpl in Hk.
      * injection Hk as <-. rewrite Nat.add_0_r. split; [now exists uri | exact Hi].
      * replace (i + S k)%nat with (S i + k)%nat by lia. now apply Hin.
    + intros key Hkey. rewrite Hout.
      * apply lookup_insert_ne. intros E. apply (Hkey 0%nat); [lia|].
        now rewrite Nat.add_0_r.
      * intros k Hk. replace (S i + k)%nat with (i + S k)%nat by lia.
        apply Hkey. lia.
Qed.

Lemma cacheAlbums_fetched fs n photos (i : nat) (ac : gmap string string) :
  (forall k photo, photos !! k = Some photo -> fetched fs photo (albumCacheKey fs n (i + k))) ->
  exists m, ProfilePage.cacheAlbums fs n photos i ac = Returned m.
Proof.
  revert i ac. induction photos as [|photo rest IH]; intros i ac H; simpl.
  - now exists ac.
  - destruct (H 0%nat photo eq_refl) as (uri & R & D). rewrite Nat.add_0_r in D.
    rewrite R. simpl. unfold albumCacheKey in D. rewrite D. simpl.
    apply IH. intros k p Hk. replace (S i + k)%nat with (i + S k)%nat by lia. now apply H.
Qed.

Lemma cacheAll_Returned fs n (info : ProfilePage.Info) (cache : gmap string string) :
  ProfilePage.cacheAll fs n info = Returned cache ->
  fetched fs (ProfilePage.image info) (mainCacheKey fs n)
  /\ cache !! "profile" = Some (mainCacheKey fs n)
  /\ forall k photo, ProfilePage.photoAlbums info !! k = Some photo ->
       fetched fs photo (albumCacheKey fs n k)
       /\ cache !! ("album_" +:+ pretty k) = Some (albumCacheKey fs n k).
Proof.
  unfold ProfilePage.cacheAll.
  destruct (resolveAssetSource fs (ProfilePage.image info)) as [uri|] eqn:R; simpl; [|discriminate].
  destruct (downloadAsync fs uri _) as [[]|] eqn:D; simpl; [|discriminate].
  destruct (ProfilePage.cacheAlbums fs n _ 0 ∅) as [m|] eqn:A; simpl; [|discriminate].
  intros [= <-]. apply cacheAlbums_Returned in A as [Hin Hout].
  split; [now exists uri|]. split.
  - apply lookup_union_Some_raw. right. split; [|apply lookup_singleton_eq].
    rewrite Hout; [apply lookup_empty|]. intros k _. discriminate.
  - intros k photo Hk. destruct (Hin k photo Hk) as [Hf Hm]. split; [exact Hf|].
    apply lookup_union_Some_raw. now left.
Qed.

Lemma cacheAll_fetched fs n (info : ProfilePage.Info) :
  fetched fs (ProfilePage.image info) (mainCacheKey fs n) ->
  (forall k photo, ProfilePage.photoAlbums info !! k = Some photo ->
     fetched fs photo (albumCacheKey fs n k)) ->
  exists cache, ProfilePage.cacheAll fs n info = Returned cache.
Proof.
  intros (uri & R & D) Hall. unfold ProfilePage.cacheAll. rewrite R. simpl.
  unfold mainCacheKey in D. rewrite D. simpl.
  destruct (cacheAlbums_fetched fs n (ProfilePage.photoAlbums info) 0 ∅ Hall) as [m ->].
  simpl. eauto.
Qed.

Lemma source_empty (key asset : string) : ProfilePage.source ∅ key asset = Asset asset.
Proof. unfold ProfilePage.source. now rewrite lookup_empty. Qed.

(** X12.  Caching the images of a profile is all or nothing.  When the
    main image or any one photo of the albums cannot be fetched, nothing is
    cached, the images fetched before the failure included: the error is
    logged, the image cache is left as it was, isImageLoaded is set, and a
    page that had nothing cached shows every image from the bundled
    assets. *)
Theorem profile_cache_all_or_nothing fs n (info : ProfilePage.Info) st :
  ProfilePage.profileInfo n = Own info ->
  (~ fetched fs (ProfilePage.image info) (mainCacheKey fs n)
   \/ exists k photo, ProfilePage.photoAlbums info !! k = Some photo
                      /\ ~ fetched fs photo (albumCacheKey fs n k)) ->
  let r := ProfilePage.cacheImages fs n st in
  ProfilePage.imageCache (fst r) = ProfilePage.imageCache st
  /\ ProfilePage.isImageLoaded (fst r) = true
  /\ length (snd r) = 1%nat
  /\ ProfilePage.render n (fst (ProfilePage.cacheImages fs n ProfilePage.initial))
     = Returned (ProfilePage.Page (Asset (ProfilePage.image info))
         (ProfilePage.fullName info) (ProfilePage.relation info)
         (ProfilePage.IconComponent info) (ProfilePage.nicknames info)
         (ProfilePage.audioAlbums info) (Asset <$> ProfilePage.photoAlbums info)).
Proof.
  intros Hi Hfail.
  assert (E : exists e, ProfilePage.cacheAll fs n info = Raised e).
  { destruct (ProfilePage.cacheAll fs n info) as [cache|e] eqn:E; [|eauto].
    exfalso. apply cacheAll_Returned in E as (Hm & _ & Hall).
    destruct Hfail as [Hf | (k & photo & Hk & Hf)]; [now apply Hf|].
    apply Hf. now apply (Hall k photo). }
  destruct E as [e E]. unfold ProfilePage.cacheImages. rewrite Hi, E. simpl.
  repeat split. unfold ProfilePage.render. rewrite Hi. simpl.
  rewrite source_empty. do 2 f_equal.
  rewrite <- (imap_const Asset). apply imap_ext. intros i x _. apply source_empty.
Qed.

(* A file system where the second photo of an album cannot be fetched. *)
Lemma profile_cache_all_or_nothing_witness :
  let fs := {| cacheDirectory := Some "file:///cache/";
               resolveAssetSource := fun img => Returned img;
               downloadAsync := fun uri _ =>
                 if decide (uri = "../assets/images/album2.png")
                 then Raised "Network request failed" else Returned tt |} in
  ProfilePage.imageCache (fst (ProfilePage.cacheImages fs "Daniel" ProfilePage.initial)) = ∅.
Proof.
  intros fs.
  destruct (ProfilePage.profileInfo "Daniel") as [info| |] eqn:Hi;
    [|vm_compute in Hi; discriminate|vm_compute in Hi; discriminate].
  apply (profile_cache_all_or_nothing fs "Daniel" info ProfilePage.initial Hi).
  right. exists 1%nat, "../assets/images/album2.png". split.
  - vm_compute in Hi. injection Hi as <-. reflexivity.
  - intros (uri & R & D). injection R as <-. vm_compute in D. discriminate.
Defined.

(** X13.  When the main image and every photo of the albums of a profile
    can be fetched, caching stores them all and logs nothing, and the page
    then shows the header from cacheDirectory + name + "_profile.jpg" and
    the photo of index i from cacheDirectory + name + "_album_" + i +
    ".jpg", none from the bundled assets. *)
Theorem profile_cache_complete fs n (info : ProfilePage.Info) st :
  ProfilePage.profileInfo n = Own info ->
  fetched fs (ProfilePage.image info) (mainCacheKey fs n) ->
  (forall k photo, ProfilePage.photoAlbums info !! k = Some photo ->
     fetched fs photo (albumCacheKey fs n k)) ->
  let r := ProfilePage.cacheImages fs n st in
  snd r = []
  /\ ProfilePage.isImageLoaded (fst r) = true
  /\ ProfilePage.render n (fst r)
     = Returned (ProfilePage.Page (Uri (mainCacheKey fs n))
         (ProfilePage.fullName info) (ProfilePage.relation info)
         (ProfilePage.IconComponent info) (ProfilePage.nicknames info)
         (ProfilePage.audioAlbums info)
         (imap (fun i _ => Uri (albumCacheKey fs n i)) (ProfilePage.photoAlbums info))).
Proof.
  intros Hi Hmain Hall.
  destruct (cacheAll_fetched fs n info Hmain Hall) as [cache E].
  pose proof (cacheAll_Returned _ _ _ _ E) as (_ & Hp & Ha).
  unfold ProfilePage.cacheImages. rewrite Hi, E. simpl. repeat split.
  unfold ProfilePage.render. rewrite Hi. simpl. do 2 f_equal.
  - unfold ProfilePage.source. rewrite Hp.
    destruct (decide (mainCacheKey fs n = "")) as [Hempty|]; [|reflexivity].
    exfalso. revert Hempty. unfold mainCacheKey.
    apply append_nonempty, append_nonempty. discriminate.
  - apply imap_ext. intros i photo Hk. destruct (Ha i photo Hk) as [_ Hm].
    unfold ProfilePage.source. rewrite Hm.
    destruct (decide (albumCacheKey fs n i = "")) as [Hempty|]; [|reflexivity].
    exfalso. revert Hempty. unfold albumCacheKey.
    do 4 apply append_nonempty. discriminate.
Qed.

Lemma profile_cache_complete_witness :
  exists info,
    ProfilePage.profileInfo "Michelle" = Own info
    /\ snd (ProfilePage.cacheImages online "Michelle" ProfilePage.initial) = [].
Proof.
  destruct (ProfilePage.profileInfo "Michelle") as [info| |] eqn:Hi;
    [|vm_compute in Hi; discriminate|vm_compute in Hi; discriminate].
  exists info. split; [reflexivity|].
  apply (profile_cache_complete online "Michelle" info ProfilePage.initial Hi).
  - eexists. split; reflexivity.
  - intros k photo _. eexists. split; reflexivity.
Defined.

End ProfilePageFacts.
